(** * kube-openapi, pkg/builder3: the OpenAPI v3 document builder

    A shallow embedding of [pkg/builder3/openapi.go] and the properties of its
    document assembly: parameter building, hoisting of the parameters common
    to every route of a path, the memoised recursive walk over schema
    definitions, response merging and the installation of paths.

    Conventions of the embedding.
    - A Go [map] is a [gmap]; a [for ... range] over a map visits its entries
      in an order the language leaves open, given here by [rangeOrder].
    - A method of [*openAPI] reads the configuration and the definitions and
      mutates [o.spec] in place: the embedding passes the read-only part as
      [o] and threads the document explicitly.
    - A Go function returning [(value, error)] returns a pair whose second
      component is [None] for a nil error; the value is kept on error too, as
      the source returns it. *)

From Stdlib Require Import ZArith Ascii String List Permutation Lia.
From stdpp Require Import base option list gmap strings fin_maps fin_sets sorting.

Open Scope string_scope.

(** ** Errors

    The source builds its errors with [fmt.Errorf]; one constructor per
    message, carrying what the message prints. *)
Inductive BuildError : Type :=
  | DuplicatePath (path : string)
      (* "duplicate webservice route has been found for path: %v" *)
  | DuplicateParameter (name : string)
      (* "duplicate parameter %v for route %v, %v" *)
  | UnsupportedParameterKind (kind : Z)
      (* "unsupported restful parameter kind : %v" *)
  | InvalidRequiredness (name : string)
      (* "path parameters should be marked at required for parameter %v" *)
  | UnknownType (name : string)
      (* "cannot find model definition for %v. ..." *)
  | DuplicateMediaType (mediaType typeName : string)
      (* "duplicate meida type %v for %v" *)
  | CollaboratorError (msg : string).
      (* whatever config.GetOperationIDAndTags returns *)

(** ** github.com/emicklei/go-restful: the route declarations *)
Module restful.

(** [Kind int] with the constants of go-restful's parameter.go. *)
Definition PathParameterKind : Z := 0%Z.
Definition QueryParameterKind : Z := 1%Z.
Definition BodyParameterKind : Z := 2%Z.
Definition HeaderParameterKind : Z := 3%Z.
Definition FormParameterKind : Z := 4%Z.

Record ParameterData : Type := {
  Name : string;
  Description : string;
  DataType : string;
  Kind : Z;
  Required : bool
}.

(** [*restful.Parameter] wraps its data; [Data()] reads it.  ([Parameter]
    is a reserved word here, hence the underscore.) *)
Record Parameter_ : Type := { data : ParameterData }.
Definition Data (p : Parameter_) : ParameterData := data p.

Record ResponseError : Type := {
  Code : Z;
  Message : string;
  Model : string          (* the sample value, as the Go type it has *)
}.

Record Route : Type := {
  Method : string;
  Path : string;
  Doc : string;
  Operation : string;
  Produces : list string;
  Consumes : list string;
  ParameterDocs : list Parameter_;
  ResponseErrors : gmap Z ResponseError;
  ReadSample : option string;
  WriteSample : option string;
  Metadata : gmap string string
}.

Record WebService : Type := {
  RootPath : string;
  PathParameters : list Parameter_;
  Routes : list Route
}.

End restful.

(** ** github.com/go-openapi/spec: schemas *)
Module spec.

Definition Extensions : Type := gmap string string.

Record SchemaProps : Type := {
  Description : string;
  Type_ : list string;
  Format : string;
  Ref : string
}.

Record Schema : Type := {
  VendorExtensible : option Extensions;   (* nil or a map *)
  Props : SchemaProps;
  SwaggerSchemaProps : string
}.

Definition emptyProps : SchemaProps :=
  {| Description := ""; Type_ := []; Format := ""; Ref := "" |}.

End spec.

(** ** github.com/p0lyn0mial/spec3: the document *)
Module spec3.

Record Parameter_ : Type := {
  Name : string;
  In : string;
  Description : string;
  Required : bool
}.

Record MediaType : Type := { Schema : option spec.Schema }.

Record Response : Type := {
  RDescription : string;
  Content : gmap string MediaType
}.

Record Responses : Type := {
  StatusCodeResponses : gmap Z (option Response);  (* map[int]*Response *)
  Default : option Response
}.

Record Operation : Type := {
  ODescription : string;
  Produces : list string;
  Schemes : list string;
  OResponses : Responses;
  Extensions : option spec.Extensions;
  ID : string;
  Tags : list string;
  OParameters : list Parameter_
}.

Record Path : Type := {
  Parameters : list Parameter_;
  Get : option Operation;
  Put : option Operation;
  Post : option Operation;
  Delete : option Operation;
  Options : option Operation;
  Head : option Operation;
  Patch : option Operation
}.

(** [Paths.Paths] and [Components.Schemas], the two maps the builder
    fills. *)
Record OpenAPI : Type := {
  Paths : gmap string Path;
  Schemas : gmap string spec.Schema
}.

End spec3.

(** ** k8s.io/kube-openapi/pkg/common: the configuration *)
Module common.

Record OpenAPIDefinition : Type := {
  Schema : spec.Schema;
  Dependencies : list string
}.

Record Config : Type := {
  ProtocolList : list string;
  IgnorePrefixes : list string;
  GetOperationIDAndTags :
    restful.Route -> (string * list string) * option BuildError;
  GetDefinitionName : string -> string * option spec.Extensions;
  CommonResponses : gmap Z (option spec3.Response);
  DefaultResponse : option spec3.Response
}.

End common.

(** ** What the builder takes from its surroundings

    [rangeOrder] is the order in which a [range] loop visits the entries of a
    map: some permutation of them.  The other fields are functions of this
    repository's [pkg/util] and [pkg/common] that the builder calls and whose
    code is not part of the builder. *)
Class Collaborators : Type := {
  rangeOrder : forall A : Type, list A -> list A;
  rangeOrder_perm : forall (A : Type) (l : list A), Permutation (rangeOrder A l) l;
  (* util.NewTrie(prefixes).HasPrefix(path); a trie of no prefixes has a
     prefix of no path *)
  HasPrefix : list string -> string -> bool;
  HasPrefix_nil : forall path : string, HasPrefix [] path = false;
  (* util.GetCanonicalTypeName(sample) *)
  GetCanonicalTypeName : string -> string;
  (* common.GetOpenAPITypeFormat(typeName) *)
  GetOpenAPITypeFormat : string -> string * string;
  (* common.EscapeJsonPointer(name) *)
  EscapeJsonPointer : string -> string
}.

Arguments rangeOrder {_ _} _.

(** The receiver [o]: the parts of [openAPI] that a build only reads. *)
Record openAPI : Type := {
  config : common.Config;
  definitions : gmap string common.OpenAPIDefinition
}.

(** ** buildParameter *)

Definition buildParameter (restParam : restful.ParameterData)
        : spec3.Parameter_ * option BuildError :=
  let ret (loc : string) :=
    {| spec3.Name := restful.Name restParam;
       spec3.In := loc;
       spec3.Description := restful.Description restParam;
       spec3.Required := restful.Required restParam |} in
  if (restful.Kind restParam =? restful.PathParameterKind)%Z then
    if negb (restful.Required restParam)
    then (ret "path", Some (InvalidRequiredness (restful.Name restParam)))
    else (ret "path", None)
  else if (restful.Kind restParam =? restful.QueryParameterKind)%Z then
    (ret "query", None)
  else if (restful.Kind restParam =? restful.HeaderParameterKind)%Z then
    (ret "header", None)
  else
    (ret "", Some (UnsupportedParameterKind (restful.Kind restParam))).

(** [buildParameters] fills [ret] index by index and stops at the first
    failure; the list is the part of [ret] filled so far (the source leaves
    the remaining slots nil). *)
Fixpoint buildParameters (restParam : list restful.Parameter_)
    : list spec3.Parameter_ * option BuildError :=
  match restParam with
  | [] => ([], None)
  | v :: rest =>
      match buildParameter (restful.Data v) with
      | (p, Some err) => ([p], Some err)
      | (p, None) =>
          let '(ret, err) := buildParameters rest in (p :: ret, err)
      end
  end.

(** ** Helpers of the package that live outside openapi.go *)

(** The key of a parameter in the hoisting maps. *)
Definition ParamKey : Type := string * Z.

(** Modelled from the spec: [mapKeyFromParam], which openapi.go calls and
    does not define.  "A parameter is uniquely identified within a route by
    the pair (name, kind)." *)
Definition mapKeyFromParam (param : restful.Parameter_) : ParamKey :=
  (restful.Name (restful.Data param), restful.Kind (restful.Data param)).

(** Modelled from the spec: [groupRoutesByPath], which openapi.go calls and
    does not define.  "Groups the web service's routes by their path
    template"; each group keeps the routes in their order. *)
Definition groupRoutesByPath (routes : list restful.Route)
    : gmap string (list restful.Route) :=
  fold_left
    (fun (pathToRoutes : gmap string (list restful.Route)) r =>
       <[restful.Path r :=
           (default [] (pathToRoutes !! restful.Path r) ++ [r])%list]>
         pathToRoutes)
    routes ∅.

(** Modelled from the spec: [sortParameters], which openapi.go calls and
    does not define.  "Sorted by location then name." *)
Definition parameterLe (p q : spec3.Parameter_) : bool :=
  String.ltb (spec3.In p) (spec3.In q)
  || (String.eqb (spec3.In p) (spec3.In q)
      && String.leb (spec3.Name p) (spec3.Name q)).

Fixpoint insertParameter (p : spec3.Parameter_) (l : list spec3.Parameter_)
    : list spec3.Parameter_ :=
  match l with
  | [] => [p]
  | q :: l' => if parameterLe p q then p :: q :: l' else q :: insertParameter p l'
  end.

Definition sortParameters (l : list spec3.Parameter_) : list spec3.Parameter_ :=
  fold_right insertParameter [] l.

(** ** Strings *)

(** [strings.HasSuffix]. *)
Definition HasSuffix (s suffix : string) : bool :=
  let n := String.length s in
  let k := String.length suffix in
  (k <=? n)%nat && String.eqb (substring (n - k) k s) suffix.

(** The body of the [":*}"] test in [buildOpenAPISpec]:
    [path = path[:len(path)-3] + "}"]. *)
Definition resolvePath (path : string) : string :=
  if HasSuffix path ":*}"
  then substring 0 (String.length path - 3) path ++ "}"
  else path.

(** [strings.ToLower] on ASCII letters, as [spec.Extensions.Add] applies it
    to the key. *)
Definition lowerAscii (c : ascii) : ascii :=
  let n := nat_of_ascii c in
  if ((65 <=? n) && (n <=? 90))%nat then ascii_of_nat (n + 32) else c.

Fixpoint ToLower (s : string) : string :=
  match s with
  | EmptyString => EmptyString
  | String c s' => String (lowerAscii c) (ToLower s')
  end.

(** The constant the source keeps in a comment:
    [// extensionPrefix = "x-kubernetes-"]. *)
Definition extensionPrefix : string := "x-kubernetes-".

Definition StatusOK : Z := 200%Z.

(** ** The builder *)
Section Builder.
Context {collab : Collaborators}.

(** *** findCommonParameters *)

(** The two maps the first loop of [findCommonParameters] fills.  A count
    never exceeds the number of routes, so no wrap-around of [int] is in
    reach and the counts are naturals. *)
Record tally : Type := {
  paramOpsCountByName : gmap ParamKey nat;
  paramNameKindToDataMap : gmap ParamKey restful.ParameterData
}.

Definition emptyTally : tally :=
  {| paramOpsCountByName := ∅; paramNameKindToDataMap := ∅ |}.

(** The inner loop, over the parameters of one route.
    [routeParamDuplicateMap] only ever stores [true]: a set of keys. *)
Fixpoint scanParameterDocs (params : list restful.Parameter_)
    (routeParamDuplicateMap : gset ParamKey) (t : tally)
    : option BuildError * tally :=
  match params with
  | [] => (None, t)
  | param :: rest =>
      let key := mapKeyFromParam param in
      if decide (key ∈ routeParamDuplicateMap) then
        (Some (DuplicateParameter (restful.Name (restful.Data param))), t)
      else
        scanParameterDocs rest ({[key]} ∪ routeParamDuplicateMap)
          {| paramOpsCountByName :=
               <[key := S (default 0%nat (paramOpsCountByName t !! key))]>
                 (paramOpsCountByName t);
             paramNameKindToDataMap :=
               <[key := restful.Data param]> (paramNameKindToDataMap t) |}
  end.

(** The outer loop, over the routes. *)
Fixpoint scanRoutes (routes : list restful.Route) (t : tally)
    : option BuildError * tally :=
  match routes with
  | [] => (None, t)
  | route :: rest =>
      match scanParameterDocs (restful.ParameterDocs route) ∅ t with
      | (Some err, t') => (Some err, t')
      | (None, t') => scanRoutes rest t'
      end
  end.

(** The zero value a Go map read yields for a missing key. *)
Definition zeroParameterData : restful.ParameterData :=
  {| restful.Name := ""; restful.Description := ""; restful.DataType := "";
     restful.Kind := 0%Z; restful.Required := false |}.

(** The second loop, over the entries of [paramOpsCountByName] in the
    order the [range] visits them. *)
Fixpoint hoistLoop (entries : list (ParamKey * nat)) (nroutes : nat)
    (dataMap : gmap ParamKey restful.ParameterData)
    (commonParamsMap : gmap ParamKey spec3.Parameter_)
    : gmap ParamKey spec3.Parameter_ * option BuildError :=
  match entries with
  | [] => (commonParamsMap, None)
  | (key, count) :: rest =>
      let paramData := default zeroParameterData (dataMap !! key) in
      if (count =? nroutes)%nat
         && negb (restful.Kind paramData =? restful.BodyParameterKind)%Z
      then
        match buildParameter paramData with
        | (_, Some err) => (commonParamsMap, Some err)
        | (openAPIParam, None) =>
            hoistLoop rest nroutes dataMap
              (<[key := openAPIParam]> commonParamsMap)
        end
      else hoistLoop rest nroutes dataMap commonParamsMap
  end.

Definition findCommonParameters (routes : list restful.Route)
    : gmap ParamKey spec3.Parameter_ * option BuildError :=
  match scanRoutes routes emptyTally with
  | (Some err, _) => (∅, Some err)
  | (None, t) =>
      hoistLoop (rangeOrder (map_to_list (paramOpsCountByName t)))
        (length routes) (paramNameKindToDataMap t) ∅
  end.

(** *** Schema definitions *)

Definition setSchema (uniqueName : string) (schema : spec.Schema)
    (doc : spec3.OpenAPI) : spec3.OpenAPI :=
  {| spec3.Paths := spec3.Paths doc;
     spec3.Schemas := <[uniqueName := schema]> (spec3.Schemas doc) |}.

(** The copy of the definition's schema with the namer's extensions laid
    over its own.  (In the source the copy shares the extension map of the
    definition, so the definition sees the added keys too; nothing below
    reads a definition's extensions again.) *)
Definition schemaWithExtensions (item : common.OpenAPIDefinition)
    (extensions : option spec.Extensions) : spec.Schema :=
  let schema := common.Schema item in
  match extensions with
  | None => schema
  | Some ext =>
      {| spec.VendorExtensible :=
           Some (ext ∪ default ∅ (spec.VendorExtensible schema));
         spec.Props := spec.Props schema;
         spec.SwaggerSchemaProps := spec.SwaggerSchemaProps schema |}
  end.

(** The loop of [buildDefinitionRecursively] over the dependencies of a
    definition; [recurse] is the recursive call. *)
Fixpoint dependenciesLoop
    (recurse : string -> spec3.OpenAPI ->
               option (option BuildError * spec3.OpenAPI))
    (vs : list string) (doc : spec3.OpenAPI)
    : option (option BuildError * spec3.OpenAPI) :=
  match vs with
  | [] => Some (None, doc)
  | v :: vs' =>
      match recurse v doc with
      | None => None
      | Some (Some err, doc') => Some (Some err, doc')
      | Some (None, doc') => dependenciesLoop recurse vs' doc'
      end
  end.

(** [buildDefinitionRecursively], with the depth of the recursion bounded
    by [fuel]; [None] stands for a recursion deeper than that. *)
Fixpoint buildDefinitionRecursively_fuel (o : openAPI) (fuel : nat)
    (name : string) (doc : spec3.OpenAPI) {struct fuel}
    : option (option BuildError * spec3.OpenAPI) :=
  match fuel with
  | O => None
  | S fuel' =>
      let '(uniqueName, extensions) :=
        common.GetDefinitionName (config o) name in
      match spec3.Schemas doc !! uniqueName with
      | Some _ => Some (None, doc)
      | None =>
          match definitions o !! name with
          | Some item =>
              let schema := schemaWithExtensions item extensions in
              dependenciesLoop (buildDefinitionRecursively_fuel o fuel')
                (common.Dependencies item) (setSchema uniqueName schema doc)
          | None => Some (Some (UnknownType name), doc)
          end
      end
  end.

(** Every call that goes past the memoisation test adds a schema under a
    name it did not have, and only definitions add schemas: the recursion
    is never deeper than the number of definitions plus one. *)
Definition buildDefinitionRecursively (o : openAPI) (name : string)
    (doc : spec3.OpenAPI) : option BuildError * spec3.OpenAPI :=
  default (None, doc)
    (buildDefinitionRecursively_fuel o (S (size (definitions o))) name doc).

Definition buildDefinitionForType (o : openAPI) (name : string)
    (doc : spec3.OpenAPI) : (string * option BuildError) * spec3.OpenAPI :=
  match buildDefinitionRecursively o name doc with
  | (Some err, doc') => (("", Some err), doc')
  | (None, doc') =>
      let '(defName, _) := common.GetDefinitionName (config o) name in
      (("#/components/schemas/" ++ EscapeJsonPointer defName, None), doc')
  end.

Definition toSchema (o : openAPI) (name : string) (doc : spec3.OpenAPI)
    : (option spec.Schema * option BuildError) * spec3.OpenAPI :=
  let '(openAPIType, openAPIFormat) := GetOpenAPITypeFormat name in
  if negb (String.eqb openAPIType "") then
    ((Some {| spec.VendorExtensible := None;
              spec.Props :=
                {| spec.Description := ""; spec.Type_ := [openAPIType];
                   spec.Format := openAPIFormat; spec.Ref := "" |};
              spec.SwaggerSchemaProps := "" |}, None), doc)
  else
    match buildDefinitionForType o name doc with
    | ((_, Some err), doc') => ((None, Some err), doc')
    | ((ref, None), doc') =>
        ((Some {| spec.VendorExtensible := None;
                  spec.Props :=
                    {| spec.Description := ""; spec.Type_ := [];
                       spec.Format := ""; spec.Ref := ref |};
                  spec.SwaggerSchemaProps := "" |}, None), doc')
    end.

(** *** Responses *)

(** The loop of [buildResponse] over the media types (a slice). *)
Fixpoint contentLoop (mediaTypes : list string) (schema : option spec.Schema)
    (typeName : string) (content : gmap string spec3.MediaType)
    : gmap string spec3.MediaType * option BuildError :=
  match mediaTypes with
  | [] => (content, None)
  | mediaType :: rest =>
      match content !! mediaType with
      | Some _ => (content, Some (DuplicateMediaType mediaType typeName))
      | None =>
          contentLoop rest schema typeName
            (<[mediaType := {| spec3.Schema := schema |}]> content)
      end
  end.

Definition buildResponse (o : openAPI) (model : string)
    (description : string) (mediaTypes : list string) (doc : spec3.OpenAPI)
    : (option spec3.Response * option BuildError) * spec3.OpenAPI :=
  match toSchema o (GetCanonicalTypeName model) doc with
  | ((_, Some err), doc') => ((None, Some err), doc')
  | ((schema, None), doc') =>
      match contentLoop mediaTypes schema (GetCanonicalTypeName model) ∅ with
      | (_, Some err) => ((None, Some err), doc')
      | (content, None) =>
          ((Some {| spec3.RDescription := description;
                    spec3.Content := content |}, None), doc')
      end
  end.

(** *** buildOperations *)

(** The loop over [route.Metadata]; [Extensions.Add] lower-cases the key. *)
Definition addExtension (extensions : option spec.Extensions)
    (kv : string * string) : option spec.Extensions :=
  if String.prefix extensionPrefix (fst kv)
  then Some (<[ToLower (fst kv) := snd kv]> (default ∅ extensions))
  else extensions.

(** The loop over [route.ResponseErrors].  The assignment
    [StatusCodeResponses[resp.Code], err = o.buildResponse(...)] stores the
    response before the error is looked at. *)
Fixpoint responseErrorsLoop (o : openAPI) (consumes : list string)
    (resps : list (Z * restful.ResponseError))
    (statusCodeResponses : gmap Z (option spec3.Response))
    (doc : spec3.OpenAPI)
    : (gmap Z (option spec3.Response) * option BuildError) * spec3.OpenAPI :=
  match resps with
  | [] => ((statusCodeResponses, None), doc)
  | (_, resp) :: rest =>
      match buildResponse o (restful.Model resp) (restful.Message resp)
              consumes doc with
      | ((r, Some err), doc') =>
          ((<[restful.Code resp := r]> statusCodeResponses, Some err), doc')
      | ((r, None), doc') =>
          responseErrorsLoop o consumes rest
            (<[restful.Code resp := r]> statusCodeResponses) doc'
      end
  end.

(** "If there is no response but a write sample, assume that write sample
    is an http.StatusOK response." *)
Definition writeSampleResponse (o : openAPI) (route : restful.Route)
    (statusCodeResponses : gmap Z (option spec3.Response))
    (doc : spec3.OpenAPI)
    : (gmap Z (option spec3.Response) * option BuildError) * spec3.OpenAPI :=
  match restful.WriteSample route with
  | Some sample =>
      if (size statusCodeResponses =? 0)%nat then
        match buildResponse o sample "OK" (restful.Consumes route) doc with
        | ((r, err), doc') => ((<[StatusOK := r]> statusCodeResponses, err), doc')
        end
      else ((statusCodeResponses, None), doc)
  | None => ((statusCodeResponses, None), doc)
  end.

(** The loop over [o.config.CommonResponses]. *)
Definition addCommonResponse
    (statusCodeResponses : gmap Z (option spec3.Response))
    (entry : Z * option spec3.Response) : gmap Z (option spec3.Response) :=
  match statusCodeResponses !! fst entry with
  | Some _ => statusCodeResponses
  | None => <[fst entry := snd entry]> statusCodeResponses
  end.

Definition mergeCommonResponses (o : openAPI)
    (statusCodeResponses : gmap Z (option spec3.Response))
    : gmap Z (option spec3.Response) :=
  fold_left addCommonResponse
    (rangeOrder (map_to_list (common.CommonResponses (config o))))
    statusCodeResponses.

(** The loop over [route.ParameterDocs] that builds the parameters which
    are not common to the path. *)
Fixpoint operationParameters (params : list restful.Parameter_)
    (inPathCommonParamsMap : gmap ParamKey spec3.Parameter_)
    (parameters : list spec3.Parameter_)
    : list spec3.Parameter_ * option BuildError :=
  match params with
  | [] => (parameters, None)
  | param :: rest =>
      match inPathCommonParamsMap !! mapKeyFromParam param with
      | Some _ => operationParameters rest inPathCommonParamsMap parameters
      | None =>
          match buildParameter (restful.Data param) with
          | (_, Some err) => (parameters, Some err)
          | (openAPIParam, None) =>
              operationParameters rest inPathCommonParamsMap
                (parameters ++ [openAPIParam])%list
          end
      end
  end.

Definition buildOperations (o : openAPI) (route : restful.Route)
    (inPathCommonParamsMap : gmap ParamKey spec3.Parameter_)
    (doc : spec3.OpenAPI)
    : (spec3.Operation * option BuildError) * spec3.OpenAPI :=
  let ret (id : string) (tags : list string)
          (responses : spec3.Responses)
          (parameters : list spec3.Parameter_) : spec3.Operation :=
    {| spec3.ODescription := restful.Doc route;
       spec3.Produces := restful.Produces route;
       spec3.Schemes := common.ProtocolList (config o);
       spec3.OResponses := responses;
       spec3.Extensions :=
         fold_left addExtension
           (rangeOrder (map_to_list (restful.Metadata route))) None;
       spec3.ID := id;
       spec3.Tags := tags;
       spec3.OParameters := parameters |} in
  let responses (statusCodeResponses : gmap Z (option spec3.Response))
                (default : option spec3.Response) : spec3.Responses :=
    {| spec3.StatusCodeResponses := statusCodeResponses;
       spec3.Default := default |} in
  match common.GetOperationIDAndTags (config o) route with
  | ((id, tags), Some err) => ((ret id tags (responses ∅ None) [], Some err), doc)
  | ((id, tags), None) =>
      (* Build responses *)
      match responseErrorsLoop o (restful.Consumes route)
              (rangeOrder (map_to_list (restful.ResponseErrors route)))
              ∅ doc with
      | ((declared, Some err), doc1) =>
          ((ret id tags (responses declared None) [], Some err), doc1)
      | ((declared, None), doc1) =>
          match writeSampleResponse o route declared doc1 with
          | ((explicit, Some err), doc2) =>
              ((ret id tags (responses explicit None) [], Some err), doc2)
          | ((explicit, None), doc2) =>
              let merged := mergeCommonResponses o explicit in
              (* If there is still no response, use default response
                 provided. *)
              let default :=
                if (size merged =? 0)%nat
                then common.DefaultResponse (config o) else None in
              (* Build non-common Parameters *)
              match operationParameters (restful.ParameterDocs route)
                      inPathCommonParamsMap [] with
              | (parameters, err) =>
                  ((ret id tags (responses merged default) parameters, err),
                   doc2)
              end
          end
      end
  end.

(** *** buildOpenAPISpec *)

Definition newPath (parameters : list spec3.Parameter_) : spec3.Path :=
  {| spec3.Parameters := parameters;
     spec3.Get := None; spec3.Put := None; spec3.Post := None;
     spec3.Delete := None; spec3.Options := None; spec3.Head := None;
     spec3.Patch := None |}.

Definition setPath (path : string) (pathItem : spec3.Path)
    (doc : spec3.OpenAPI) : spec3.OpenAPI :=
  {| spec3.Paths := <[path := pathItem]> (spec3.Paths doc);
     spec3.Schemas := spec3.Schemas doc |}.

(** The inner loop of [buildOpenAPISpec], over the groups of routes of one
    web service.  The loop over the routes of a group is empty in the
    source ("TODO: build operations"): the path item is installed with
    its parameters only. *)
Fixpoint pathsLoop (o : openAPI) (commonParams : list spec3.Parameter_)
    (groups : list (string * list restful.Route)) (doc : spec3.OpenAPI)
    : option BuildError * spec3.OpenAPI :=
  match groups with
  | [] => (None, doc)
  | (path, routes) :: rest =>
      let path := resolvePath path in
      if HasPrefix (common.IgnorePrefixes (config o)) path then
        pathsLoop o commonParams rest doc
      else
        match findCommonParameters routes with
        | (_, Some err) => (Some err, doc)
        | (inPathCommonParamsMap, None) =>
            match spec3.Paths doc !! path with
            | Some _ => (Some (DuplicatePath path), doc)
            | None =>
                let pathItem :=
                  newPath
                    (sortParameters
                       (commonParams
                        ++ (rangeOrder (map_to_list inPathCommonParamsMap)).*2)%list)
                in
                pathsLoop o commonParams rest (setPath path pathItem doc)
            end
        end
  end.

(** The outer loop, over the web services (a slice). *)
Fixpoint buildOpenAPISpec (o : openAPI)
    (webServices : list restful.WebService) (doc : spec3.OpenAPI)
    : option BuildError * spec3.OpenAPI :=
  match webServices with
  | [] => (None, doc)
  | w :: rest =>
      if HasPrefix (common.IgnorePrefixes (config o)) (restful.RootPath w)
      then buildOpenAPISpec o rest doc
      else
        match buildParameters (restful.PathParameters w) with
        | (_, Some err) => (Some err, doc)
        | (commonParams, None) =>
            match pathsLoop o commonParams
                    (rangeOrder (map_to_list
                                   (groupRoutesByPath (restful.Routes w))))
                    doc with
            | (Some err, doc') => (Some err, doc')
            | (None, doc') => buildOpenAPISpec o rest doc'
            end
        end
  end.

(** [newOpenAPI]: the receiver and the document it starts from.  The
    source allocates the map of paths only; the definitions and the
    schemas are the zero values, which read as empty maps. *)
Definition newOpenAPI (config : common.Config) : openAPI * spec3.OpenAPI :=
  ({| config := config; definitions := ∅ |},
   {| spec3.Paths := ∅; spec3.Schemas := ∅ |}).

(** [BuildOpenAPISpec] returns [o.spec], a pointer: [Some] of the
    document, [None] were it nil. *)
Definition BuildOpenAPISpec (webServices : list restful.WebService)
    (config : common.Config) : option spec3.OpenAPI * option BuildError :=
  let '(o, doc) := newOpenAPI config in
  let '(err, doc') := buildOpenAPISpec o webServices doc in
  (Some doc', err).


(** *** Notions the statements below speak of *)

(** The keys a route declares, in the order of its parameters. *)
Definition keysOf (route : restful.Route) : list ParamKey :=
  mapKeyFromParam <$> restful.ParameterDocs route.

(** [key] is declared on every route of [routes]. *)
Definition declaredOnEvery (key : ParamKey) (routes : list restful.Route)
    : Prop :=
  forall route, route ∈ routes -> key ∈ keysOf route.


(** The kinds [buildParameter] has a location for. *)
Definition supportedKind (kind : Z) : Prop :=
  kind = restful.PathParameterKind \/ kind = restful.QueryParameterKind
  \/ kind = restful.HeaderParameterKind.

(** The number of routes of [routes] that declare [key]. *)
Definition occurrences (key : ParamKey) (routes : list restful.Route) : nat :=
  length (filter (fun route => key ∈ keysOf route) routes).

(** The display name [config.GetDefinitionName] gives a type name. *)
Definition displayName (o : openAPI) (name : string) : string :=
  fst (common.GetDefinitionName (config o) name).

(** The definitions whose display name has no schema yet: each call of
    [buildDefinitionRecursively] that adds a schema takes one away. *)
Definition pendingNames (o : openAPI) (doc : spec3.OpenAPI) : gset string :=
  filter (fun name => displayName o name ∉ dom (spec3.Schemas doc))
         (dom (definitions o)).

(** The resolved paths the loops of [buildOpenAPISpec] reach the
    installation with, in the order of the visit: those of the groups of
    one web service, and those of a list of web services. *)
Definition retainedPaths (o : openAPI)
    (groups : list (string * list restful.Route)) : list string :=
  filter (fun path => HasPrefix (common.IgnorePrefixes (config o)) path = false)
         ((fun group => resolvePath (fst group)) <$> groups).

Fixpoint visitedPaths (o : openAPI) (webServices : list restful.WebService)
    : list string :=
  match webServices with
  | [] => []
  | w :: rest =>
      ((if HasPrefix (common.IgnorePrefixes (config o)) (restful.RootPath w)
        then []
        else retainedPaths o
               (rangeOrder (map_to_list (groupRoutesByPath (restful.Routes w)))))
       ++ visitedPaths o rest)%list
  end.

(** The schema map of [doc] has, for every definition whose schema it
    holds, the schemas of that definition's dependencies; the definitions
    named in [pending] are left out of the count. *)
Definition closedUnderDependencies (o : openAPI) (pending : gset string)
    (doc : spec3.OpenAPI) : Prop :=
  forall name item,
    definitions o !! name = Some item ->
    is_Some (spec3.Schemas doc !! displayName o name) ->
    name ∉ pending ->
    forall dependency, dependency ∈ common.Dependencies item ->
      is_Some (spec3.Schemas doc !! displayName o dependency).

(** The schema [buildDefinitionRecursively] stores for a definition. *)
Definition schemaOfDefinition (o : openAPI) (name : string)
    (item : common.OpenAPIDefinition) : spec.Schema :=
  schemaWithExtensions item (snd (common.GetDefinitionName (config o) name)).

(** The status codes a route gives its operation by itself: those of its
    declared responses, or 200 alone when it declares none and has a write
    sample. *)
Definition explicitCodes (route : restful.Route) : gset Z :=
  if decide (restful.ResponseErrors route = ∅) then
    match restful.WriteSample route with
    | Some _ => {[ StatusOK ]}
    | None => ∅
    end
  else
    list_to_set (restful.Code <$> (map_to_list (restful.ResponseErrors route)).*2).

(** The declarations of a route whose key is not in a map of hoisted
    parameters. *)
Definition ownParameters (route : restful.Route)
    (inPathCommonParamsMap : gmap ParamKey spec3.Parameter_)
    : list restful.Parameter_ :=
  filter (fun param => inPathCommonParamsMap !! mapKeyFromParam param = None)
         (restful.ParameterDocs route).

End Builder.

(** ** Concrete surroundings and inputs

    A [range] that visits the entries in the order [map_to_list] lists them,
    an ignore list read as a list of prefixes, and the routes of the
    package's test: a GET and a POST on [/foo/test/{path}]. *)
Definition listedOrder : Collaborators := {|
  rangeOrder := fun _ l => l;
  rangeOrder_perm := fun _ l => Permutation_refl l;
  HasPrefix := fun prefixes s => existsb (fun p => String.prefix p s) prefixes;
  HasPrefix_nil := fun _ => eq_refl;
  GetCanonicalTypeName := fun s => s;
  GetOpenAPITypeFormat :=
    fun s => if String.eqb s "string" then ("string", "") else ("", "");
  EscapeJsonPointer := fun s => s
|}.

Definition param (name description : string) (kind : Z) (required : bool)
    : restful.Parameter_ :=
  {| restful.data :=
       {| restful.Name := name; restful.Description := description;
          restful.DataType := "string"; restful.Kind := kind;
          restful.Required := required |} |}.

Definition route (method path : string) (params : list restful.Parameter_)
    : restful.Route :=
  {| restful.Method := method; restful.Path := path;
     restful.Doc := method ++ " test input"; restful.Operation := "";
     restful.Produces := ["application/json"];
     restful.Consumes := ["application/json"];
     restful.ParameterDocs := params;
     restful.ResponseErrors := ∅;
     restful.ReadSample := None; restful.WriteSample := None;
     restful.Metadata := ∅ |}.

Definition pathParam : restful.Parameter_ :=
  param "path" "path to the resource" restful.PathParameterKind true.
Definition prettyParam : restful.Parameter_ :=
  param "pretty" "If 'true', then the output is pretty printed."
    restful.QueryParameterKind false.
Definition formParam : restful.Parameter_ :=
  param "fparam" "a test form parameter" restful.FormParameterKind false.

Definition getRoute : restful.Route :=
  route "GET" "/foo/test/{path}" [pathParam; prettyParam].
Definition postRoute : restful.Route :=
  route "POST" "/foo/test/{path}" [pathParam].

Definition fooService : restful.WebService :=
  {| restful.RootPath := "/foo"; restful.PathParameters := [];
     restful.Routes := [getRoute; postRoute] |}.

Definition testConfig : common.Config :=
  {| common.ProtocolList := ["https"];
     common.IgnorePrefixes := [];
     common.GetOperationIDAndTags :=
       fun r => ((restful.Operation r, []), None);
     common.GetDefinitionName := fun name => (name, None);
     common.CommonResponses := ∅;
     common.DefaultResponse := None |}.

Definition emptyDocument : spec3.OpenAPI :=
  {| spec3.Paths := ∅; spec3.Schemas := ∅ |}.

Definition formRoute : restful.Route :=
  route "GET" "/foo/test/{path}" [pathParam; formParam].
Definition formTwiceRoute : restful.Route :=
  route "GET" "/foo/test/{path}" [formParam; formParam].

(** Definitions for the walk: two types that depend on each other, and a
    type reached along two paths. *)
Definition objectDefinition (description : string) (dependencies : list string)
    : common.OpenAPIDefinition :=
  {| common.Schema :=
       {| spec.VendorExtensible := None;
          spec.Props :=
            {| spec.Description := description; spec.Type_ := ["object"];
               spec.Format := ""; spec.Ref := "" |};
          spec.SwaggerSchemaProps := "" |};
     common.Dependencies := dependencies |}.

Definition cyclicBuilder : openAPI :=
  {| config := testConfig;
     definitions :=
       {[ "pkg.A" := objectDefinition "A" ["pkg.B"];
          "pkg.B" := objectDefinition "B" ["pkg.A"] ]} |}.

Definition diamondBuilder : openAPI :=
  {| config := testConfig;
     definitions :=
       {[ "pkg.Top" := objectDefinition "Top" ["pkg.Left"; "pkg.Right"];
          "pkg.Left" := objectDefinition "Left" ["pkg.Leaf"];
          "pkg.Right" := objectDefinition "Right" ["pkg.Leaf"];
          "pkg.Leaf" := objectDefinition "Leaf" [] ]} |}.

(** Configurations with a default response, without and with a table of
    common responses, and a route that declares its 200 response. *)
Definition unauthorized : spec3.Response :=
  {| spec3.RDescription := "Unauthorized"; spec3.Content := ∅ |}.
Definition commonOK : spec3.Response :=
  {| spec3.RDescription := "common OK"; spec3.Content := ∅ |}.
Definition defaultResponse : spec3.Response :=
  {| spec3.RDescription := "Default Response."; spec3.Content := ∅ |}.

Definition defaultOnlyConfig : common.Config :=
  {| common.ProtocolList := ["https"];
     common.IgnorePrefixes := [];
     common.GetOperationIDAndTags :=
       fun r => ((restful.Operation r, []), None);
     common.GetDefinitionName := fun name => (name, None);
     common.CommonResponses := ∅;
     common.DefaultResponse := Some defaultResponse |}.

Definition commonResponsesConfig : common.Config :=
  {| common.ProtocolList := ["https"];
     common.IgnorePrefixes := [];
     common.GetOperationIDAndTags :=
       fun r => ((restful.Operation r, []), None);
     common.GetDefinitionName := fun name => (name, None);
     common.CommonResponses :=
       {[ 200%Z := Some commonOK; 401%Z := Some unauthorized ]};
     common.DefaultResponse := Some defaultResponse |}.

Definition returningRoute : restful.Route :=
  {| restful.Method := "GET"; restful.Path := "/foo/test/{path}";
     restful.Doc := "get test input"; restful.Operation := "getTestInput";
     restful.Produces := ["application/json"];
     restful.Consumes := ["application/json"];
     restful.ParameterDocs := [pathParam];
     restful.ResponseErrors :=
       {[ 200%Z := {| restful.Code := 200%Z; restful.Message := "OK";
                      restful.Model := "string" |} ]};
     restful.ReadSample := None; restful.WriteSample := Some "string";
     restful.Metadata := ∅ |}.

(** The document parameters of [pathParam] and [prettyParam]. *)
Definition pathParameter : spec3.Parameter_ :=
  {| spec3.Name := "path"; spec3.In := "path";
     spec3.Description := "path to the resource"; spec3.Required := true |}.
Definition prettyParameter : spec3.Parameter_ :=
  {| spec3.Name := "pretty"; spec3.In := "query";
     spec3.Description := "If 'true', then the output is pretty printed.";
     spec3.Required := false |}.

(** A second web service on the path of [fooService], whose one route has a
    form parameter, and a web service whose own parameter is one. *)
Definition formService : restful.WebService :=
  {| restful.RootPath := "/foo"; restful.PathParameters := [];
     restful.Routes := [formRoute] |}.
Definition brokenService : restful.WebService :=
  {| restful.RootPath := "/bar"; restful.PathParameters := [formParam];
     restful.Routes := [] |}.

(** A route whose path parameter is not required and which has a form
    parameter too. *)
Definition optionalPathParam : restful.Parameter_ :=
  param "path" "path to the resource" restful.PathParameterKind false.
Definition optionalPathFormRoute : restful.Route :=
  route "GET" "/foo/test/{path}" [optionalPathParam; formParam].

(** Receivers for the configurations above. *)
Definition testBuilder : openAPI :=
  {| config := testConfig; definitions := ∅ |}.
Definition defaultOnlyBuilder : openAPI :=
  {| config := defaultOnlyConfig; definitions := ∅ |}.
Definition commonResponsesBuilder : openAPI :=
  {| config := commonResponsesConfig; definitions := ∅ |}.

(** The document after the resolution of [pkg.Top]. *)
Definition diamondDocument : spec3.OpenAPI :=
  snd (buildDefinitionForType (collab := listedOrder) diamondBuilder "pkg.Top"
         emptyDocument).

(** A [range] that visits the entries in the opposite order. *)
Definition reversedOrder : Collaborators := {|
  rangeOrder := fun _ l => rev l;
  rangeOrder_perm := fun _ l => Permutation_sym (Permutation_rev l);
  HasPrefix := fun prefixes s => existsb (fun p => String.prefix p s) prefixes;
  HasPrefix_nil := fun _ => eq_refl;
  GetCanonicalTypeName := fun s => s;
  GetOpenAPITypeFormat :=
    fun s => if String.eqb s "string" then ("string", "") else ("", "");
  EscapeJsonPointer := fun s => s
|}.

(** A web service with the same path written with and without the greedy
    marker. *)
Definition greedyRoute : restful.Route :=
  route "GET" "/foo/test/{path:*}" [pathParam].
Definition plainRoute : restful.Route :=
  route "POST" "/foo/test/{path}" [pathParam].
Definition twoSpellingsService : restful.WebService :=
  {| restful.RootPath := "/foo"; restful.PathParameters := [];
     restful.Routes := [greedyRoute; plainRoute] |}.

(** A definition that depends on a type without definition. *)
Definition danglingBuilder : openAPI :=
  {| config := testConfig;
     definitions := {[ "pkg.A" := objectDefinition "A" ["pkg.Missing"] ]} |}.

(** The document a failed resolution of [pkg.A] leaves. *)
Definition danglingDocument : spec3.OpenAPI :=
  snd (buildDefinitionRecursively danglingBuilder "pkg.A" emptyDocument).

(** * Properties *)

Section BuildParameter.

(** C6. [buildParameter] tags a path parameter "path", a query parameter
  "query" and a header parameter "header", and it returns an error exactly
  when the kind is none of these three, or the kind is path and the
  parameter is not marked required. *)
Theorem buildParameter_kinds_and_errors (restParam : restful.ParameterData) :
(restful.Kind restParam = restful.PathParameterKind ->
   spec3.In (fst (buildParameter restParam)) = "path") /\
(restful.Kind restParam = restful.QueryParameterKind ->
   spec3.In (fst (buildParameter restParam)) = "query") /\
(restful.Kind restParam = restful.HeaderParameterKind ->
   spec3.In (fst (buildParameter restParam)) = "header") /\
(snd (buildParameter restParam) <> None <->
   (restful.Kind restParam <> restful.PathParameterKind /\
    restful.Kind restParam <> restful.QueryParameterKind /\
    restful.Kind restParam <> restful.HeaderParameterKind) \/
   (restful.Kind restParam = restful.PathParameterKind /\
    restful.Required restParam = false)).
Proof.
unfold buildParameter, restful.PathParameterKind, restful.QueryParameterKind,
  restful.HeaderParameterKind.
destruct restParam as [n d t k r]; simpl.
destruct (Z.eqb_spec k 0) as [-> | Hp]; simpl;
  [ destruct r; simpl
  | destruct (Z.eqb_spec k 1) as [-> | Hq]; simpl;
    [ | destruct (Z.eqb_spec k 3) as [-> | Hh]; simpl ] ];
  repeat split; intros; try discriminate; try congruence; try lia;
  try (intuition (congruence || lia)).
Qed.

End BuildParameter.

(** ** The first loop of [findCommonParameters] *)
Section Tally.
Context {collab : Collaborators}.
Implicit Types (k key : ParamKey) (t : tally).
Implicit Types (params : list restful.Parameter_).
Implicit Types (route : restful.Route) (routes : list restful.Route).

Lemma rangeOrder_elem_of {A : Type} (l : list A) (x : A) :
  x ∈ rangeOrder l <-> x ∈ l.
Proof. by rewrite (rangeOrder_perm A l). Qed.

Lemma rangeOrder_nil {A : Type} : rangeOrder (@nil A) = [].
Proof. apply Permutation_nil. symmetry. apply rangeOrder_perm. Qed.

Lemma rangeOrder_singleton {A : Type} (x : A) : rangeOrder [x] = [x].
Proof. apply Permutation_length_1_inv. symmetry. apply rangeOrder_perm. Qed.

Lemma scanParameterDocs_ok params (dup : gset ParamKey) t t' :
  scanParameterDocs params dup t = (None, t') ->
  NoDup (mapKeyFromParam <$> params)
  /\ (forall k, k ∈ mapKeyFromParam <$> params -> k ∉ dup)
  /\ (forall k, k ∈ mapKeyFromParam <$> params ->
        paramOpsCountByName t' !! k
        = Some (S (default 0 (paramOpsCountByName t !! k)))
        /\ exists p, p ∈ params /\ mapKeyFromParam p = k
                     /\ paramNameKindToDataMap t' !! k = Some (restful.Data p))
  /\ (forall k, k ∉ mapKeyFromParam <$> params ->
        paramOpsCountByName t' !! k = paramOpsCountByName t !! k
        /\ paramNameKindToDataMap t' !! k = paramNameKindToDataMap t !! k).
Proof.
  revert dup t. induction params as [|p params IH]; intros dup t Hscan.
  - simpl in Hscan. injection Hscan as <-.
    split; [constructor|]. split; [intros k Hk; inversion Hk|].
    split; [intros k Hk; inversion Hk | done].
  - simpl in Hscan. case_decide as Hdup; [discriminate|].
    apply IH in Hscan as (Hnd & Hfresh & Hin & Hout); simpl in *.
    assert (Hp : mapKeyFromParam p ∉ mapKeyFromParam <$> params).
    { intros Hk. apply Hfresh in Hk. set_solver. }
    repeat split.
    + by constructor.
    + intros k [-> | Hk]%elem_of_cons; [done|].
      apply Hfresh in Hk. set_solver.
    + destruct (decide (k = mapKeyFromParam p)) as [-> | Hne].
      * destruct (Hout _ Hp) as [-> _]. by rewrite lookup_insert_eq.
      * apply elem_of_cons in H as [? | Hk]; [done|].
        destruct (Hin _ Hk) as [-> _]. by rewrite lookup_insert_ne.
    + destruct (decide (k = mapKeyFromParam p)) as [-> | Hne].
      * exists p. split; [left|]. split; [done|].
        destruct (Hout _ Hp) as [_ ->]. by rewrite lookup_insert_eq.
      * apply elem_of_cons in H as [? | Hk]; [done|].
        destruct (Hin _ Hk) as [_ (q & ? & ? & ?)].
        exists q. split; [by right | done].
    + apply not_elem_of_cons in H as [Hne Hk].
      destruct (Hout _ Hk) as [-> _]. by rewrite lookup_insert_ne.
    + apply not_elem_of_cons in H as [Hne Hk].
      destruct (Hout _ Hk) as [_ ->]. by rewrite lookup_insert_ne.
Qed.

Lemma scanParameterDocs_error params (dup : gset ParamKey) t e t' :
  scanParameterDocs params dup t = (Some e, t') ->
  exists name, e = DuplicateParameter name.
Proof.
  revert dup t. induction params as [|p params IH]; intros dup t; simpl.
  - discriminate.
  - case_decide; [intros [= <- _]; eauto | apply IH].
Qed.

Lemma scanParameterDocs_NoDup params (dup : gset ParamKey) t :
  NoDup (mapKeyFromParam <$> params) ->
  (forall k, k ∈ mapKeyFromParam <$> params -> k ∉ dup) ->
  fst (scanParameterDocs params dup t) = None.
Proof.
  revert dup t. induction params as [|p params IH]; intros dup t Hnd Hfresh.
  - done.
  - simpl in *. apply NoDup_cons in Hnd as [Hp Hnd].
    case_decide as Hdup; [exfalso; eapply Hfresh; [left | done]|].
    apply IH; [done|]. intros k Hk.
    assert (k ∉ dup) by (apply Hfresh; by right).
    assert (k <> mapKeyFromParam p) by (by intros ->).
    set_solver.
Qed.

Lemma occurrences_cons key route routes :
  occurrences key (route :: routes)
  = ((if decide (key ∈ keysOf route) then 1 else 0) + occurrences key routes)%nat.
Proof.
  unfold occurrences. rewrite filter_cons. by case_decide.
Qed.

Lemma occurrences_le key routes : (occurrences key routes <= length routes)%nat.
Proof. apply length_filter. Qed.

Lemma occurrences_all key routes :
  occurrences key routes = length routes <-> declaredOnEvery key routes.
Proof.
  unfold declaredOnEvery. induction routes as [|route routes IH].
  - split; [intros _ r Hr; inversion Hr | done].
  - rewrite occurrences_cons. pose proof (occurrences_le key routes).
    simpl. case_decide as Hk; split.
    + intros Hn r [-> | Hr]%elem_of_cons; [done|]. apply IH; [lia | done].
    + intros Hall. f_equal. apply IH. intros r Hr. apply Hall. by right.
    + lia.
    + intros Hall. exfalso. apply Hk, Hall. left.
Qed.

Lemma scanRoutes_ok routes t t' :
  scanRoutes routes t = (None, t') ->
  (forall route, route ∈ routes -> NoDup (keysOf route))
  /\ (forall k, occurrences k routes = 0%nat ->
        paramOpsCountByName t' !! k = paramOpsCountByName t !! k
        /\ paramNameKindToDataMap t' !! k = paramNameKindToDataMap t !! k)
  /\ (forall k, occurrences k routes <> 0%nat ->
        paramOpsCountByName t' !! k
        = Some (default 0 (paramOpsCountByName t !! k) + occurrences k routes)%nat
        /\ exists route p,
             route ∈ routes /\ p ∈ restful.ParameterDocs route
             /\ mapKeyFromParam p = k
             /\ paramNameKindToDataMap t' !! k = Some (restful.Data p)).
Proof.
  revert t. induction routes as [|route routes IH]; intros t Hscan.
  - simpl in Hscan. injection Hscan as <-.
    repeat split; try done. intros r Hr; inversion Hr.
  - simpl in Hscan.
    destruct (scanParameterDocs (restful.ParameterDocs route) ∅ t)
      as [[e|] t1] eqn:Hroute; [discriminate|].
    apply scanParameterDocs_ok in Hroute as (Hnd & _ & Hin & Hout).
    apply IH in Hscan as (Hnds & Hzero & Hpos).
    split; [|split].
    + intros r [-> | Hr]%elem_of_cons; [done | by apply Hnds].
    + intros k. rewrite occurrences_cons. case_decide as Hk; [lia|].
      intros Hocc. destruct (Hzero k) as [-> ->]; [lia|]. by apply Hout.
    + intros k. rewrite occurrences_cons.
      destruct (decide (occurrences k routes = 0%nat)) as [Hz | Hnz].
      * rewrite Hz. case_decide as Hk; [|lia]. intros _.
        destruct (Hzero k Hz) as [-> ->].
        destruct (Hin k Hk) as [-> (p & Hp & Hkey & Hdata)].
        split; [f_equal; lia|]. exists route, p. by repeat split; [left|..].
      * intros _. destruct (Hpos k Hnz) as [-> (r & p & Hr & Hp & Hkey & Hdata)].
        split.
        -- f_equal. case_decide as Hk.
           ++ destruct (Hin k Hk) as [-> _]. simpl. lia.
           ++ destruct (Hout k Hk) as [-> _]. lia.
        -- exists r, p. by repeat split; [right|..].
Qed.

Lemma scanRoutes_error routes t e t' :
  scanRoutes routes t = (Some e, t') -> exists name, e = DuplicateParameter name.
Proof.
  revert t. induction routes as [|route routes IH]; intros t; simpl.
  - discriminate.
  - destruct (scanParameterDocs _ _ _) as [[e1|] t1] eqn:Hroute.
    + intros [= <- _]. by eapply scanParameterDocs_error.
    + apply IH.
Qed.

Lemma scanRoutes_NoDup routes t :
  (forall route, route ∈ routes -> NoDup (keysOf route)) ->
  fst (scanRoutes routes t) = None.
Proof.
  revert t. induction routes as [|route routes IH]; intros t Hnd; [done|].
  simpl.
  pose proof (scanParameterDocs_NoDup (restful.ParameterDocs route) ∅ t) as Hr.
  destruct (scanParameterDocs _ _ _) as [[e|] t1]; simpl in Hr.
  - discriminate Hr; [apply Hnd; left | set_solver].
  - apply IH. intros r Hr'. apply Hnd. by right.
Qed.

End Tally.

(** ** The second loop of [findCommonParameters] and its result *)
Section Hoisting.
Context {collab : Collaborators}.
Implicit Types (k key : ParamKey) (t : tally).
Implicit Types (route : restful.Route) (routes : list restful.Route).
Implicit Types (entries : list (ParamKey * nat)).
Implicit Types (dataMap : gmap ParamKey restful.ParameterData).
Implicit Types (m acc : gmap ParamKey spec3.Parameter_).

(** What a successful run of the loop leaves in the map. *)
Lemma hoistLoop_ok entries n dataMap acc m :
  hoistLoop entries n dataMap acc = (m, None) ->
  forall k,
    is_Some (m !! k) <->
    is_Some (acc !! k)
    \/ ((k, n) ∈ entries
        /\ restful.Kind (default zeroParameterData (dataMap !! k))
           <> restful.BodyParameterKind).
Proof.
  revert acc. induction entries as [|[key count] entries IH]; intros acc Hloop k.
  - simpl in Hloop. injection Hloop as <-. split; [by left|].
    intros [? | [Hk _]]; [done | inversion Hk].
  - simpl in Hloop.
    destruct (Nat.eqb_spec count n) as [-> | Hcount]; simpl in Hloop.
    + destruct (Z.eqb_spec
                  (restful.Kind (default zeroParameterData (dataMap !! key)))
                  restful.BodyParameterKind) as [Hbody | Hbody];
        simpl in Hloop.
      * rewrite (IH _ Hloop k). split; intros [? | [Hk ?]]; try by left.
        -- right. split; [by right | done].
        -- apply elem_of_cons in Hk as [Heq | Hk]; [by simplify_eq|]. by right.
      * destruct (buildParameter _) as [p [e|]] eqn:Hbuild; [discriminate|].
        rewrite (IH _ Hloop k).
        destruct (decide (k = key)) as [-> | Hne].
        -- rewrite lookup_insert_eq. split; intros _.
           ++ right. split; [left | done].
           ++ left. eauto.
        -- rewrite lookup_insert_ne by done.
           split; intros [? | [Hk ?]]; try by left.
           ++ right. split; [by right | done].
           ++ apply elem_of_cons in Hk as [Heq | Hk]; [by simplify_eq|]. by right.
    + rewrite (IH _ Hloop k). split; intros [? | [Hk ?]]; try by left.
      * right. split; [by right | done].
      * apply elem_of_cons in Hk as [Heq | Hk]; [by simplify_eq|]. by right.
Qed.

(** The parameters a successful run adds are built from the recorded
    data. *)
Lemma hoistLoop_value entries n dataMap acc m k p :
  hoistLoop entries n dataMap acc = (m, None) ->
  m !! k = Some p ->
  acc !! k = Some p
  \/ p = fst (buildParameter (default zeroParameterData (dataMap !! k))).
Proof.
  revert acc. induction entries as [|[key count] entries IH]; intros acc Hloop Hk.
  - simpl in Hloop. injection Hloop as <-. by left.
  - simpl in Hloop.
    destruct ((count =? n)%nat && negb (_ =? _)%Z); [|by eapply IH].
    destruct (buildParameter (default zeroParameterData (dataMap !! key)))
      as [q [e|]] eqn:Hbuild; [discriminate|].
    destruct (IH _ Hloop Hk) as [Hacc | ->]; [|by right].
    destruct (decide (k = key)) as [-> | Hne].
    + rewrite lookup_insert_eq in Hacc. injection Hacc as <-.
      right. by rewrite Hbuild.
    + rewrite lookup_insert_ne in Hacc by done. by left.
Qed.

(** An error of the loop is the error of building one of the candidates. *)
Lemma hoistLoop_error entries n dataMap acc m e :
  hoistLoop entries n dataMap acc = (m, Some e) ->
  exists k,
    (k, n) ∈ entries
    /\ restful.Kind (default zeroParameterData (dataMap !! k))
       <> restful.BodyParameterKind
    /\ snd (buildParameter (default zeroParameterData (dataMap !! k))) = Some e.
Proof.
  revert acc. induction entries as [|[key count] entries IH]; intros acc Hloop.
  - discriminate.
  - simpl in Hloop.
    destruct (Nat.eqb_spec count n) as [-> | Hcount]; simpl in Hloop.
    + destruct (Z.eqb_spec
                  (restful.Kind (default zeroParameterData (dataMap !! key)))
                  restful.BodyParameterKind) as [Hbody | Hbody];
        simpl in Hloop.
      * destruct (IH _ Hloop) as (k & ? & ? & ?). exists k. by split; [right|].
      * destruct (buildParameter _) as [q [e'|]] eqn:Hbuild.
        -- injection Hloop as _ <-. exists key.
           split; [left|]. split; [done|]. by rewrite Hbuild.
        -- destruct (IH _ Hloop) as (k & ? & ? & ?). exists k. by split; [right|].
    + destruct (IH _ Hloop) as (k & ? & ? & ?). exists k. by split; [right|].
Qed.

(** A candidate that does not build makes the loop fail, wherever the
    [range] meets it. *)
Lemma hoistLoop_fails entries n dataMap acc k :
  (k, n) ∈ entries ->
  restful.Kind (default zeroParameterData (dataMap !! k))
    <> restful.BodyParameterKind ->
  snd (buildParameter (default zeroParameterData (dataMap !! k))) <> None ->
  snd (hoistLoop entries n dataMap acc) <> None.
Proof.
  intros Hk Hbody Hbuild. revert acc.
  induction entries as [|[key count] entries IH]; intros acc; [inversion Hk|].
  simpl. apply elem_of_cons in Hk as [Heq | Hk]; [simplify_eq|].
  - rewrite Nat.eqb_refl. simpl.
    destruct (Z.eqb_spec
                (restful.Kind (default zeroParameterData (dataMap !! key)))
                restful.BodyParameterKind); [done|]. simpl.
    destruct (buildParameter _) as [q [e|]]; [done|]. by simpl in Hbuild.
  - destruct (_ && _); [|by apply IH].
    destruct (buildParameter (default zeroParameterData (dataMap !! key)))
      as [q [e|]]; [simpl; congruence | by apply IH].
Qed.

(** The error-free part of the map a failing loop returns never holds a
    key whose parameter does not build. *)
Lemma hoistLoop_partial entries n dataMap acc k :
  snd (buildParameter (default zeroParameterData (dataMap !! k))) <> None ->
  acc !! k = None ->
  fst (hoistLoop entries n dataMap acc) !! k = None.
Proof.
  intros Hbuild. revert acc.
  induction entries as [|[key count] entries IH]; intros acc Hacc; [done|].
  simpl. destruct (_ && _); [|by apply IH].
  destruct (buildParameter (default zeroParameterData (dataMap !! key)))
    as [q [e|]] eqn:Hq; [done|].
  apply IH. destruct (decide (k = key)) as [-> | Hne].
  - rewrite Hq in Hbuild. done.
  - by rewrite lookup_insert_ne.
Qed.

(** The tally of a successful first loop, started from the empty maps. *)
Lemma scanRoutes_tally routes t :
  scanRoutes routes emptyTally = (None, t) ->
  (forall route, route ∈ routes -> NoDup (keysOf route))
  /\ forall k count,
       paramOpsCountByName t !! k = Some count ->
       count = occurrences k routes
       /\ exists route p,
            route ∈ routes /\ p ∈ restful.ParameterDocs route
            /\ mapKeyFromParam p = k
            /\ paramNameKindToDataMap t !! k = Some (restful.Data p).
Proof.
  intros (Hnd & Hzero & Hpos)%scanRoutes_ok. split; [done|].
  intros k count Hcount.
  destruct (decide (occurrences k routes = 0%nat)) as [Hz | Hnz].
  - destruct (Hzero k Hz) as [Hc _]. rewrite Hc in Hcount. done.
  - destruct (Hpos k Hnz) as [Hc Hdata]. rewrite Hc in Hcount.
    simpl in Hcount. by injection Hcount as <-.
Qed.

Lemma scanRoutes_counted routes t k :
  scanRoutes routes emptyTally = (None, t) ->
  occurrences k routes <> 0%nat ->
  paramOpsCountByName t !! k = Some (occurrences k routes).
Proof.
  intros (_ & _ & Hpos)%scanRoutes_ok Hnz. by destruct (Hpos k Hnz) as [-> _].
Qed.

Lemma declaredOnEvery_occurrences key routes :
  routes <> [] -> declaredOnEvery key routes ->
  occurrences key routes = length routes /\ occurrences key routes <> 0%nat.
Proof.
  intros Hne Hall%occurrences_all. split; [done|]. rewrite Hall.
  by destruct routes.
Qed.

(** The recorded data of a counted key has that key's kind. *)
Lemma scanRoutes_kind routes t k count :
  scanRoutes routes emptyTally = (None, t) ->
  paramOpsCountByName t !! k = Some count ->
  restful.Kind (default zeroParameterData (paramNameKindToDataMap t !! k))
  = snd k.
Proof.
  intros [_ Htally]%scanRoutes_tally Hcount.
  destruct (Htally k count Hcount) as [_ (r & p & _ & _ & <- & ->)]. done.
Qed.


Lemma buildParameter_unsupported (d : restful.ParameterData) :
  ~ supportedKind (restful.Kind d) ->
  snd (buildParameter d) = Some (UnsupportedParameterKind (restful.Kind d)).
Proof.
  unfold supportedKind, buildParameter. intros Hkind.
  destruct (Z.eqb_spec (restful.Kind d) restful.PathParameterKind); [tauto|].
  destruct (Z.eqb_spec (restful.Kind d) restful.QueryParameterKind); [tauto|].
  destruct (Z.eqb_spec (restful.Kind d) restful.HeaderParameterKind); [tauto|].
  done.
Qed.

Lemma buildParameter_error (d : restful.ParameterData) e :
  snd (buildParameter d) = Some e ->
  (e = InvalidRequiredness (restful.Name d)
   /\ restful.Kind d = restful.PathParameterKind
   /\ restful.Required d = false)
  \/ (e = UnsupportedParameterKind (restful.Kind d)
      /\ ~ supportedKind (restful.Kind d)).
Proof.
  unfold supportedKind, buildParameter.
  destruct (Z.eqb_spec (restful.Kind d) restful.PathParameterKind).
  { destruct (restful.Required d); simpl; [done|]. intros [= <-]. by left. }
  destruct (Z.eqb_spec (restful.Kind d) restful.QueryParameterKind); [done|].
  destruct (Z.eqb_spec (restful.Kind d) restful.HeaderParameterKind); [done|].
  simpl. intros [= <-]. right. split; [done|]. tauto.
Qed.

Lemma elem_of_counts t k count :
  (k, count) ∈ rangeOrder (map_to_list (paramOpsCountByName t))
  <-> paramOpsCountByName t !! k = Some count.
Proof. by rewrite rangeOrder_elem_of, elem_of_map_to_list. Qed.


(** A key of an unsupported kind that every route declares makes
    [findCommonParameters] fail, and is in no map it returns. *)
Lemma findCommonParameters_unsupported routes key :
  routes <> [] ->
  ~ supportedKind (snd key) -> snd key <> restful.BodyParameterKind ->
  declaredOnEvery key routes ->
  snd (findCommonParameters routes) <> None
  /\ fst (findCommonParameters routes) !! key = None.
Proof.
  intros Hne Hkind Hbody Hall. unfold findCommonParameters.
  destruct (scanRoutes routes emptyTally) as [[e|] t] eqn:Hscan; [done|].
  destruct (declaredOnEvery_occurrences _ _ Hne Hall) as [Hlen Hnz].
  pose proof (scanRoutes_counted _ _ key Hscan Hnz) as Hcount.
  rewrite Hlen in Hcount.
  pose proof (scanRoutes_kind _ _ _ _ Hscan Hcount) as Hk.
  assert (snd (buildParameter
                 (default zeroParameterData (paramNameKindToDataMap t !! key)))
          <> None) as Hbuild.
  { rewrite buildParameter_unsupported; [done | by rewrite Hk]. }
  split.
  - apply hoistLoop_fails with (k := key); [|by rewrite Hk | done].
    by apply elem_of_counts.
  - by apply hoistLoop_partial.
Qed.

(** Where the errors of [findCommonParameters] come from. *)
Lemma findCommonParameters_error routes e :
  snd (findCommonParameters routes) = Some e ->
  (exists name, e = DuplicateParameter name)
  \/ (exists route param,
        route ∈ routes /\ param ∈ restful.ParameterDocs route
        /\ snd (buildParameter (restful.Data param)) = Some e).
Proof.
  unfold findCommonParameters.
  destruct (scanRoutes routes emptyTally) as [[e'|] t] eqn:Hscan.
  - intros [= <-]. left. by eapply scanRoutes_error.
  - destruct (hoistLoop _ _ _ _) as [m [e'|]] eqn:Hloop; [|done].
    intros [= <-]. right.
    apply hoistLoop_error in Hloop as (k & Hcount & _ & Hbuild).
    apply elem_of_counts in Hcount.
    pose proof (scanRoutes_tally _ _ Hscan) as [_ Htally].
    destruct (Htally _ _ Hcount) as [_ (r & q & Hr & Hq & Hkey & Hdata)].
    rewrite Hdata in Hbuild. by exists r, q.
Qed.

End Hoisting.

(** ** The loops of [buildOpenAPISpec] *)
Section Paths.
Context {collab : Collaborators}.
Implicit Types (o : openAPI) (doc : spec3.OpenAPI).
Implicit Types (route : restful.Route) (routes : list restful.Route).
Implicit Types (groups : list (string * list restful.Route)).
Implicit Types (webServices : list restful.WebService).
Implicit Types (commonParams : list spec3.Parameter_).

Lemma groupRoutesByPath_fold routes (m : gmap string (list restful.Route)) :
  (forall path g, m !! path = Some g -> g <> []) ->
  forall path g,
    fold_left
      (fun (pathToRoutes : gmap string (list restful.Route)) r =>
         <[restful.Path r :=
             (default [] (pathToRoutes !! restful.Path r) ++ [r])%list]>
           pathToRoutes) routes m !! path = Some g ->
    g <> [].
Proof.
  revert m. induction routes as [|r routes IH]; intros m Hm; [done|].
  simpl. apply IH. intros path g.
  destruct (decide (restful.Path r = path)) as [<- | Hne].
  - rewrite lookup_insert_eq. intros [= <-]. by destruct (default [] _).
  - rewrite lookup_insert_ne by done. apply Hm.
Qed.

Lemma groupRoutesByPath_nonempty routes path g :
  groupRoutesByPath routes !! path = Some g -> g <> [].
Proof.
  apply groupRoutesByPath_fold. intros p g'. by rewrite lookup_empty.
Qed.

Lemma retainedPaths_cons o path routes groups :
  retainedPaths o ((path, routes) :: groups)
  = if HasPrefix (common.IgnorePrefixes (config o)) (resolvePath path)
    then retainedPaths o groups
    else resolvePath path :: retainedPaths o groups.
Proof.
  unfold retainedPaths. rewrite fmap_cons, filter_cons. simpl.
  by destruct (HasPrefix _ _); case_decide.
Qed.

(** A group whose parameters do not hoist makes the loop over the groups
    fail, unless its path is ignored. *)
Lemma pathsLoop_fails o commonParams groups doc path routes :
  (path, routes) ∈ groups ->
  HasPrefix (common.IgnorePrefixes (config o)) (resolvePath path) = false ->
  snd (findCommonParameters routes) <> None ->
  fst (pathsLoop o commonParams groups doc) <> None.
Proof.
  intros Hin Hkeep Hfind. revert doc.
  induction groups as [|[path' routes'] groups IH]; intros doc; [inversion Hin|].
  simpl. apply elem_of_cons in Hin as [Heq | Hin].
  - simplify_eq. rewrite Hkeep.
    destruct (findCommonParameters routes') as [m [e|]]; done.
  - destruct (HasPrefix _ (resolvePath path')); [by apply IH|].
    destruct (findCommonParameters routes') as [m [e|]]; [done|].
    destruct (spec3.Paths doc !! resolvePath path'); [done | by apply IH].
Qed.

Lemma buildOpenAPISpec_fails o webServices doc w path routes :
  w ∈ webServices ->
  HasPrefix (common.IgnorePrefixes (config o)) (restful.RootPath w) = false ->
  groupRoutesByPath (restful.Routes w) !! path = Some routes ->
  HasPrefix (common.IgnorePrefixes (config o)) (resolvePath path) = false ->
  snd (findCommonParameters routes) <> None ->
  fst (buildOpenAPISpec o webServices doc) <> None.
Proof.
  intros Hin Hroot Hgroup Hkeep Hfind. revert doc.
  induction webServices as [|w' webServices IH]; intros doc; [inversion Hin|].
  simpl. apply elem_of_cons in Hin as [<- | Hin].
  - rewrite Hroot.
    destruct (buildParameters _) as [commonParams [e|]]; [done|].
    pose proof (pathsLoop_fails o commonParams
                  (rangeOrder (map_to_list (groupRoutesByPath (restful.Routes w))))
                  doc path routes) as Hloop.
    destruct (pathsLoop _ _ _ _) as [[e|] doc']; [done|].
    exfalso. apply Hloop; [|done..].
    by apply rangeOrder_elem_of, elem_of_map_to_list.
  - destruct (HasPrefix _ (restful.RootPath w')); [by apply IH|].
    destruct (buildParameters _) as [commonParams [e|]]; [done|].
    destruct (pathsLoop _ _ _ _) as [[e|] doc']; [done | by apply IH].
Qed.

(** A group that comes with a path the document already has: the loop
    stops with an error and the document stays as it is. *)
Lemma pathsLoop_duplicate o commonParams path routes groups doc :
  is_Some (spec3.Paths doc !! resolvePath path) ->
  HasPrefix (common.IgnorePrefixes (config o)) (resolvePath path) = false ->
  pathsLoop o commonParams ((path, routes) :: groups) doc
  = (Some (default (DuplicatePath (resolvePath path))
                   (snd (findCommonParameters routes))), doc).
Proof.
  intros [item Hitem] Hkeep. simpl. rewrite Hkeep.
  destruct (findCommonParameters routes) as [m [e|]]; [done|].
  by rewrite Hitem.
Qed.

(** A loop over the groups that ends without error met no path twice, met
    no path the document had, and added exactly the paths it met. *)
Lemma pathsLoop_installs o commonParams groups doc doc' :
  pathsLoop o commonParams groups doc = (None, doc') ->
  NoDup (retainedPaths o groups)
  /\ (forall path, path ∈ retainedPaths o groups -> path ∉ dom (spec3.Paths doc))
  /\ dom (spec3.Paths doc')
     = dom (spec3.Paths doc) ∪ list_to_set (retainedPaths o groups)
  /\ spec3.Paths doc ⊆ spec3.Paths doc'
  /\ spec3.Schemas doc' = spec3.Schemas doc.
Proof.
  revert doc. induction groups as [|[path routes] groups IH]; intros doc Hloop.
  - simpl in Hloop. injection Hloop as <-.
    repeat split; [constructor | set_solver | set_solver | done].
  - rewrite retainedPaths_cons. simpl in Hloop.
    destruct (HasPrefix _ (resolvePath path)); [by apply IH|].
    destruct (findCommonParameters routes) as [m [e|]]; [done|].
    destruct (spec3.Paths doc !! resolvePath path) eqn:Hpath; [done|].
    apply IH in Hloop as (Hnd & Hfresh & Hdom & Hsub & Hsch). simpl in *.
    rewrite dom_insert_L in Hdom, Hfresh.
    assert (resolvePath path ∉ dom (spec3.Paths doc)) by by apply not_elem_of_dom.
    repeat split.
    + constructor; [|done]. intros Hin%Hfresh. set_solver.
    + intros p [-> | Hp%Hfresh]%elem_of_cons; [done | set_solver].
    + rewrite Hdom. set_solver.
    + etrans; [|exact Hsub]. by apply insert_subseteq.
    + done.
Qed.

Lemma buildOpenAPISpec_installs o webServices doc doc' :
  buildOpenAPISpec o webServices doc = (None, doc') ->
  NoDup (visitedPaths o webServices)
  /\ (forall path, path ∈ visitedPaths o webServices ->
                   path ∉ dom (spec3.Paths doc))
  /\ dom (spec3.Paths doc')
     = dom (spec3.Paths doc) ∪ list_to_set (visitedPaths o webServices)
  /\ spec3.Paths doc ⊆ spec3.Paths doc'.
Proof.
  revert doc. induction webServices as [|w webServices IH]; intros doc Hbuild.
  - simpl in Hbuild. injection Hbuild as <-.
    repeat split; [constructor | set_solver | set_solver | done].
  - simpl in *.
    destruct (HasPrefix _ (restful.RootPath w)); [by apply IH|].
    destruct (buildParameters _) as [commonParams [e|]]; [done|].
    destruct (pathsLoop _ _ _ _) as [[e|] doc1] eqn:Hloop; [done|].
    apply pathsLoop_installs in Hloop as (Hnd1 & Hfresh1 & Hdom1 & Hsub1 & _).
    apply IH in Hbuild as (Hnd & Hfresh & Hdom & Hsub).
    rewrite Hdom1 in Hfresh.
    repeat split.
    + apply NoDup_app. split; [done|]. split; [|done].
      intros p Hp1 Hp%Hfresh. set_solver.
    + intros p [Hp%Hfresh1 | Hp%Hfresh]%elem_of_app; [done | set_solver].
    + rewrite Hdom, Hdom1, list_to_set_app_L. set_solver.
    + by etrans.
Qed.

(** Failing loops leave the paths they installed before the failure. *)
Lemma BuildOpenAPISpec_unfold webServices (cfg : common.Config) :
  BuildOpenAPISpec webServices cfg
  = (Some (snd (buildOpenAPISpec (fst (newOpenAPI cfg)) webServices
                  (snd (newOpenAPI cfg)))),
     fst (buildOpenAPISpec (fst (newOpenAPI cfg)) webServices
            (snd (newOpenAPI cfg)))).
Proof.
  unfold BuildOpenAPISpec. simpl. by destruct (buildOpenAPISpec _ _ _).
Qed.

End Paths.

(** ** The recursive walk over the definitions *)
Section Schemas.
Context {collab : Collaborators}.
Implicit Types (o : openAPI) (doc : spec3.OpenAPI) (name : string).
Implicit Types (recurse : string -> spec3.OpenAPI ->
                          option (option BuildError * spec3.OpenAPI)).

Lemma buildDefinitionRecursively_fuel_S o fuel name doc :
  buildDefinitionRecursively_fuel o (S fuel) name doc
  = match spec3.Schemas doc !! displayName o name with
    | Some _ => Some (None, doc)
    | None =>
        match definitions o !! name with
        | Some item =>
            dependenciesLoop (buildDefinitionRecursively_fuel o fuel)
              (common.Dependencies item)
              (setSchema (displayName o name)
                 (schemaWithExtensions item
                    (snd (common.GetDefinitionName (config o) name))) doc)
        | None => Some (Some (UnknownType name), doc)
        end
    end.
Proof.
  unfold displayName. simpl.
  by destruct (common.GetDefinitionName (config o) name).
Qed.

(** *** Schemas are only added *)

Lemma dependenciesLoop_grows recurse vs doc err doc' :
  (forall v d e d', recurse v d = Some (e, d') ->
     spec3.Schemas d ⊆ spec3.Schemas d' /\ spec3.Paths d' = spec3.Paths d) ->
  dependenciesLoop recurse vs doc = Some (err, doc') ->
  spec3.Schemas doc ⊆ spec3.Schemas doc' /\ spec3.Paths doc' = spec3.Paths doc.
Proof.
  intros Hrec. revert doc. induction vs as [|v vs IH]; intros doc; simpl.
  - by intros [= _ <-].
  - destruct (recurse v doc) as [[[e|] d]|] eqn:Hv; [| |done].
    + intros [= _ <-]. by eapply Hrec.
    + intros Hloop. apply Hrec in Hv as [Hsub Hpaths].
      apply IH in Hloop as [Hsub' Hpaths']. split; [by etrans | congruence].
Qed.

Lemma buildDefinitionRecursively_fuel_grows o fuel name doc err doc' :
  buildDefinitionRecursively_fuel o fuel name doc = Some (err, doc') ->
  spec3.Schemas doc ⊆ spec3.Schemas doc' /\ spec3.Paths doc' = spec3.Paths doc.
Proof.
  revert name doc err doc'. induction fuel as [|fuel IH];
    intros name doc err doc'; [done|].
  rewrite buildDefinitionRecursively_fuel_S.
  destruct (spec3.Schemas doc !! displayName o name) eqn:Hmemo.
  { by intros [= _ <-]. }
  destruct (definitions o !! name) as [item|]; [|by intros [= _ <-]].
  intros Hloop. apply dependenciesLoop_grows in Hloop as [Hsub Hpaths];
    [|exact IH].
  simpl in *. split; [|done].
  etrans; [|exact Hsub]. by apply insert_subseteq.
Qed.

(** *** A successful call leaves the schema of its name *)

Lemma buildDefinitionRecursively_fuel_present o fuel name doc doc' :
  buildDefinitionRecursively_fuel o fuel name doc = Some (None, doc') ->
  is_Some (spec3.Schemas doc' !! displayName o name).
Proof.
  destruct fuel as [|fuel]; [done|].
  rewrite buildDefinitionRecursively_fuel_S.
  destruct (spec3.Schemas doc !! displayName o name) eqn:Hmemo.
  { intros [= <-]. eauto. }
  destruct (definitions o !! name) as [item|]; [|done].
  intros Hloop. apply dependenciesLoop_grows in Hloop as [Hsub _];
    [|apply buildDefinitionRecursively_fuel_grows].
  eexists. eapply lookup_weaken; [|exact Hsub]. simpl. apply lookup_insert_eq.
Qed.

(** *** More fuel changes no result *)

Lemma dependenciesLoop_mono recurse recurse' vs doc r :
  (forall v d r, recurse v d = Some r -> recurse' v d = Some r) ->
  dependenciesLoop recurse vs doc = Some r ->
  dependenciesLoop recurse' vs doc = Some r.
Proof.
  intros Hrec. revert doc. induction vs as [|v vs IH]; intros doc; simpl; [done|].
  destruct (recurse v doc) as [[[e|] d]|] eqn:Hv; [| |done];
    rewrite (Hrec _ _ _ Hv); [done | apply IH].
Qed.

Lemma buildDefinitionRecursively_fuel_S_mono o fuel name doc r :
  buildDefinitionRecursively_fuel o fuel name doc = Some r ->
  buildDefinitionRecursively_fuel o (S fuel) name doc = Some r.
Proof.
  revert name doc r. induction fuel as [|fuel IH]; intros name doc r; [done|].
  rewrite !buildDefinitionRecursively_fuel_S.
  destruct (spec3.Schemas doc !! displayName o name); [done|].
  destruct (definitions o !! name) as [item|]; [|done].
  apply dependenciesLoop_mono, IH.
Qed.

Lemma buildDefinitionRecursively_fuel_mono o fuel fuel' name doc r :
  (fuel <= fuel')%nat ->
  buildDefinitionRecursively_fuel o fuel name doc = Some r ->
  buildDefinitionRecursively_fuel o fuel' name doc = Some r.
Proof.
  induction 1 as [|fuel' _ IH]; [done|].
  intros Hr. by apply buildDefinitionRecursively_fuel_S_mono, IH.
Qed.

(** *** The recursion ends *)

Lemma pendingNames_anti o doc doc' :
  spec3.Schemas doc ⊆ spec3.Schemas doc' ->
  pendingNames o doc' ⊆ pendingNames o doc.
Proof.
  intros Hsub%subseteq_dom. unfold pendingNames.
  intros name [Hname Hdef]%elem_of_filter. apply elem_of_filter.
  split; [set_solver | done].
Qed.

Lemma pendingNames_setSchema o name item schema doc :
  definitions o !! name = Some item ->
  spec3.Schemas doc !! displayName o name = None ->
  (size (pendingNames o (setSchema (displayName o name) schema doc))
   < size (pendingNames o doc))%nat.
Proof.
  intros Hdef Hmemo. apply subset_size. split.
  - apply pendingNames_anti. simpl. by apply insert_subseteq.
  - intros Hsub. assert (name ∈ pendingNames o doc) as Hin.
    { apply elem_of_filter. split; [by apply not_elem_of_dom|].
      apply elem_of_dom. eauto. }
    apply Hsub in Hin. apply elem_of_filter in Hin as [Hin _].
    apply Hin. simpl. rewrite dom_insert_L. set_solver.
Qed.

Lemma dependenciesLoop_total o recurse vs doc n :
  (forall v d, (size (pendingNames o d) < n)%nat -> is_Some (recurse v d)) ->
  (forall v d e d', recurse v d = Some (e, d') ->
     spec3.Schemas d ⊆ spec3.Schemas d' /\ spec3.Paths d' = spec3.Paths d) ->
  (size (pendingNames o doc) < n)%nat ->
  is_Some (dependenciesLoop recurse vs doc).
Proof.
  intros Htotal Hgrows. revert doc.
  induction vs as [|v vs IH]; intros doc Hsize; simpl; [eauto|].
  destruct (Htotal v doc Hsize) as [[[e|] d] Hv]; rewrite Hv; [eauto|].
  apply IH. apply Hgrows in Hv as [Hsub _].
  apply (pendingNames_anti o), subseteq_size in Hsub. lia.
Qed.

Lemma buildDefinitionRecursively_fuel_total o fuel name doc :
  (size (pendingNames o doc) < fuel)%nat ->
  is_Some (buildDefinitionRecursively_fuel o fuel name doc).
Proof.
  revert name doc. induction fuel as [|fuel IH]; intros name doc Hsize; [lia|].
  rewrite buildDefinitionRecursively_fuel_S.
  destruct (spec3.Schemas doc !! displayName o name) eqn:Hmemo; [eauto|].
  destruct (definitions o !! name) as [item|] eqn:Hdef; [|eauto].
  apply (dependenciesLoop_total o) with (n := fuel).
  - intros v d. apply IH.
  - intros v d e d'. apply buildDefinitionRecursively_fuel_grows.
  - pose proof (pendingNames_setSchema o name item
                  (schemaWithExtensions item
                     (snd (common.GetDefinitionName (config o) name)))
                  doc Hdef Hmemo). lia.
Qed.

Lemma pendingNames_size o doc :
  (size (pendingNames o doc) <= size (definitions o))%nat.
Proof.
  rewrite <- (size_dom (D := gset string) (definitions o)).
  apply subseteq_size. unfold pendingNames.
  intros name [_ Hname]%elem_of_filter. done.
Qed.

(** [buildDefinitionRecursively] is what the bounded recursion returns as
    soon as the bound is above the number of pending definitions. *)
Lemma buildDefinitionRecursively_fuel_enough o fuel name doc :
  (size (pendingNames o doc) < fuel)%nat ->
  buildDefinitionRecursively_fuel o fuel name doc
  = Some (buildDefinitionRecursively o name doc).
Proof.
  intros Hfuel. unfold buildDefinitionRecursively.
  pose proof (pendingNames_size o doc) as Hsize.
  destruct (buildDefinitionRecursively_fuel_total o fuel name doc Hfuel)
    as [r Hr].
  destruct (buildDefinitionRecursively_fuel_total
              o (S (size (definitions o))) name doc) as [r' Hr']; [lia|].
  rewrite Hr, Hr'. simpl. f_equal.
  destruct (Nat.le_ge_cases fuel (S (size (definitions o)))) as [Hle | Hle].
  - apply (buildDefinitionRecursively_fuel_mono _ _ _ _ _ _ Hle) in Hr.
    congruence.
  - apply (buildDefinitionRecursively_fuel_mono _ _ _ _ _ _ Hle) in Hr'.
    congruence.
Qed.

Lemma buildDefinitionRecursively_eq o name doc :
  buildDefinitionRecursively_fuel o (S (size (definitions o))) name doc
  = Some (buildDefinitionRecursively o name doc).
Proof.
  apply buildDefinitionRecursively_fuel_enough.
  pose proof (pendingNames_size o doc). lia.
Qed.

Lemma buildDefinitionRecursively_memo o name doc :
  is_Some (spec3.Schemas doc !! displayName o name) ->
  buildDefinitionRecursively o name doc = (None, doc).
Proof.
  intros [schema Hmemo]. unfold buildDefinitionRecursively.
  by rewrite buildDefinitionRecursively_fuel_S, Hmemo.
Qed.

End Schemas.

(** ** Memoisation and cycles *)
Section Memoisation.
Context {collab : Collaborators}.
Implicit Types (o : openAPI) (doc : spec3.OpenAPI) (name : string).

(** C3. When a type name resolves to a reference, resolving it again gives
    the same reference and leaves the schema map as it is; the map holds
    the schema of the name, nothing it held before was replaced, and any
    later visit of a name whose schema is there, from whichever
    dependency path, changes nothing.  A type without dependencies whose
    schema was not there adds one entry in all. *)
Theorem buildDefinitionForType_memoised o name doc ref doc1 :
  buildDefinitionForType o name doc = ((ref, None), doc1) ->
  buildDefinitionForType o name doc1 = ((ref, None), doc1)
  /\ is_Some (spec3.Schemas doc1 !! displayName o name)
  /\ spec3.Schemas doc ⊆ spec3.Schemas doc1
  /\ (forall other,
        is_Some (spec3.Schemas doc1 !! displayName o other) ->
        buildDefinitionRecursively o other doc1 = (None, doc1))
  /\ (forall item,
        spec3.Schemas doc !! displayName o name = None ->
        definitions o !! name = Some item ->
        common.Dependencies item = [] ->
        size (spec3.Schemas doc1) = S (size (spec3.Schemas doc))).
Proof.
  unfold buildDefinitionForType at 1. intros Hfirst.
  pose proof (buildDefinitionRecursively_eq o name doc) as Hrun.
  destruct (buildDefinitionRecursively o name doc) as [[e|] d] eqn:Hrec;
    [discriminate|].
  destruct (common.GetDefinitionName (config o) name) as [defName ext] eqn:Hn.
  injection Hfirst as <- <-.
  pose proof (buildDefinitionRecursively_fuel_present _ _ _ _ _ Hrun) as Hpresent.
  pose proof (buildDefinitionRecursively_fuel_grows _ _ _ _ _ _ Hrun)
    as [Hsub _].
  split; [|split; [done|]; split; [done|]; split].
  - unfold buildDefinitionForType.
    rewrite (buildDefinitionRecursively_memo _ _ _ Hpresent). by rewrite Hn.
  - intros other. apply buildDefinitionRecursively_memo.
  - intros item Hfresh Hdef Hdeps.
    rewrite buildDefinitionRecursively_fuel_S, Hfresh, Hdef, Hdeps in Hrun.
    simpl in Hrun. injection Hrun as <-. simpl.
    by apply map_size_insert_None.
Qed.


End Memoisation.

(** ** Operations *)
Section Operations.
Context {collab : Collaborators}.
Implicit Types (o : openAPI) (doc : spec3.OpenAPI) (route : restful.Route).
Implicit Types (m declared explicit : gmap Z (option spec3.Response)).
Implicit Types (entries : list (Z * option spec3.Response)).
Implicit Types (inPathCommonParamsMap : gmap ParamKey spec3.Parameter_).

Lemma fold_addCommonResponse entries m (code : Z) :
  fold_left addCommonResponse entries m !! code
  = match m !! code with
    | Some r => Some r
    | None => (list_to_map entries : gmap Z (option spec3.Response)) !! code
    end.
Proof.
  revert m. induction entries as [|[c r] entries IH]; intros m; simpl.
  - rewrite lookup_empty. by destruct (m !! code).
  - rewrite IH. unfold addCommonResponse. simpl.
    destruct (decide (c = code)) as [-> | Hne].
    + rewrite lookup_insert_eq.
      destruct (m !! code) eqn:Hm; [by rewrite Hm|].
      by rewrite lookup_insert_eq.
    + rewrite (lookup_insert_ne (list_to_map entries)) by done.
      destruct (m !! c); [done|]. by rewrite lookup_insert_ne.
Qed.

(** The loop over the common responses, whatever the order of the visit. *)
Lemma mergeCommonResponses_lookup o m (code : Z) :
  mergeCommonResponses o m !! code
  = match m !! code with
    | Some r => Some r
    | None => common.CommonResponses (config o) !! code
    end.
Proof.
  unfold mergeCommonResponses. rewrite fold_addCommonResponse.
  destruct (m !! code); [done|]. f_equal.
  rewrite <- (list_to_map_to_list (common.CommonResponses (config o))) at 2.
  apply list_to_map_proper; [|apply rangeOrder_perm].
  rewrite (rangeOrder_perm _ _). apply NoDup_fst_map_to_list.
Qed.

(** What [buildOperations] returns once the operation has its id and its
    explicit responses. *)
Lemma buildOperations_unfold o route inPathCommonParamsMap doc
    declared doc1 explicit doc2 :
  snd (common.GetOperationIDAndTags (config o) route) = None ->
  responseErrorsLoop o (restful.Consumes route)
    (rangeOrder (map_to_list (restful.ResponseErrors route))) ∅ doc
  = ((declared, None), doc1) ->
  writeSampleResponse o route declared doc1 = ((explicit, None), doc2) ->
  let result := buildOperations o route inPathCommonParamsMap doc in
  spec3.StatusCodeResponses (spec3.OResponses (fst (fst result)))
  = mergeCommonResponses o explicit
  /\ spec3.Default (spec3.OResponses (fst (fst result)))
     = (if (size (mergeCommonResponses o explicit) =? 0)%nat
        then common.DefaultResponse (config o) else None)
  /\ spec3.OParameters (fst (fst result))
     = fst (operationParameters (restful.ParameterDocs route)
              inPathCommonParamsMap [])
  /\ snd (fst result)
     = snd (operationParameters (restful.ParameterDocs route)
              inPathCommonParamsMap [])
  /\ snd result = doc2.
Proof.
  intros Hid Hdeclared Hexplicit. unfold buildOperations.
  destruct (common.GetOperationIDAndTags (config o) route)
    as [[id tags] [e|]]; [discriminate|].
  rewrite Hdeclared, Hexplicit.
  by destruct (operationParameters _ _ _).
Qed.

Lemma responseErrorsLoop_none o route doc :
  restful.ResponseErrors route = ∅ ->
  responseErrorsLoop o (restful.Consumes route)
    (rangeOrder (map_to_list (restful.ResponseErrors route))) ∅ doc
  = ((∅, None), doc).
Proof. intros ->. by rewrite map_to_list_empty, rangeOrder_nil. Qed.

Lemma writeSampleResponse_none o route declared doc :
  restful.WriteSample route = None ->
  writeSampleResponse o route declared doc = ((declared, None), doc).
Proof. unfold writeSampleResponse. by intros ->. Qed.

(** C7. In the operation [buildOperations] returns, a status code that had
    an explicit response, declared by the route or made from its write
    sample, keeps that response, and a status code that had none has the
    common response of the configuration, if there is one. *)
Theorem common_responses_never_override o route inPathCommonParamsMap doc
    declared doc1 explicit doc2 (code : Z) :
  snd (common.GetOperationIDAndTags (config o) route) = None ->
  responseErrorsLoop o (restful.Consumes route)
    (rangeOrder (map_to_list (restful.ResponseErrors route))) ∅ doc
  = ((declared, None), doc1) ->
  writeSampleResponse o route declared doc1 = ((explicit, None), doc2) ->
  spec3.StatusCodeResponses
    (spec3.OResponses
       (fst (fst (buildOperations o route inPathCommonParamsMap doc))))
    !! code
  = match explicit !! code with
    | Some response => Some response
    | None => common.CommonResponses (config o) !! code
    end.
Proof.
  intros Hid Hdeclared Hexplicit.
  destruct (buildOperations_unfold o route inPathCommonParamsMap doc
              _ _ _ _ Hid Hdeclared Hexplicit) as [-> _].
  apply mergeCommonResponses_lookup.
Qed.

(** C8, as the code has it.  For a route with no declared response and no
    write sample, built under a configuration whose table of common
    responses is empty, the operation has no status-code response and its
    default response is the configured one. *)
Theorem default_response_fallback o route inPathCommonParamsMap doc
    operation doc' :
  restful.ResponseErrors route = ∅ ->
  restful.WriteSample route = None ->
  common.CommonResponses (config o) = ∅ ->
  buildOperations o route inPathCommonParamsMap doc
  = ((operation, None), doc') ->
  spec3.StatusCodeResponses (spec3.OResponses operation) = ∅
  /\ spec3.Default (spec3.OResponses operation)
     = common.DefaultResponse (config o)
  /\ doc' = doc.
Proof.
  intros Hnone Hsample Hcommon Hbuild.
  assert (snd (common.GetOperationIDAndTags (config o) route) = None) as Hid.
  { unfold buildOperations in Hbuild.
    destruct (common.GetOperationIDAndTags (config o) route)
      as [[id tags] [e|]]; [discriminate | done]. }
  destruct (buildOperations_unfold o route inPathCommonParamsMap doc
              ∅ doc ∅ doc Hid (responseErrorsLoop_none o route doc Hnone)
              (writeSampleResponse_none o route ∅ doc Hsample))
    as (Hcodes & Hdefault & _ & _ & Hdoc).
  rewrite Hbuild in Hcodes, Hdefault, Hdoc. simpl in *.
  assert (mergeCommonResponses o ∅ = ∅) as Hmerged.
  { unfold mergeCommonResponses.
    by rewrite Hcommon, map_to_list_empty, rangeOrder_nil. }
  rewrite Hmerged in Hcodes, Hdefault. by rewrite map_size_empty in Hdefault.
Qed.

End Operations.

(** ** The build of the test's web service *)

(** Replace a closed subterm by its value. *)
Ltac evaluate t :=
  let v := eval vm_compute in t in
  let H := fresh "Hvalue" in
  assert (t = v) as H by (vm_compute; reflexivity); rewrite H; clear H.

Section EndToEnd.
Context {collab : Collaborators}.
Implicit Types (o : openAPI) (doc : spec3.OpenAPI).

Lemma findCommonParameters_testRoutes :
  findCommonParameters [getRoute; postRoute]
  = ({[ ("path", restful.PathParameterKind) := pathParameter ]}, None).
Proof.
  unfold findCommonParameters.
  set (scan := scanRoutes [getRoute; postRoute] emptyTally).
  vm_compute in scan. subst scan. cbv iota beta.
  match goal with
  | |- context [map_to_list ?m] => evaluate (map_to_list m)
  end.
  match goal with
  | |- context [rangeOrder ?l] =>
      destruct (Permutation_length_2_inv
                  (Permutation_sym (rangeOrder_perm _ l))) as [Heq | Heq];
      rewrite Heq
  end; vm_compute; reflexivity.
Qed.

Lemma groups_fooService :
  rangeOrder (map_to_list (groupRoutesByPath (restful.Routes fooService)))
  = [("/foo/test/{path}", [getRoute; postRoute])].
Proof.
  evaluate (map_to_list (groupRoutesByPath (restful.Routes fooService))).
  apply rangeOrder_singleton.
Qed.

(** The build of [fooService] installs one path item, with the hoisted
    parameter and no operation, and goes on. *)
Lemma buildOpenAPISpec_fooService o rest doc :
  HasPrefix (common.IgnorePrefixes (config o)) "/foo" = false ->
  HasPrefix (common.IgnorePrefixes (config o)) "/foo/test/{path}" = false ->
  spec3.Paths doc !! "/foo/test/{path}" = None ->
  buildOpenAPISpec o (fooService :: rest) doc
  = buildOpenAPISpec o rest
      (setPath "/foo/test/{path}" (newPath [pathParameter]) doc).
Proof.
  intros Hroot Hpath Hfresh.
  cbn [buildOpenAPISpec].
  change (restful.RootPath fooService) with "/foo". rewrite Hroot.
  change (buildParameters (restful.PathParameters fooService))
    with (@nil spec3.Parameter_, @None BuildError).
  cbv iota beta. rewrite groups_fooService. cbn [pathsLoop].
  evaluate (resolvePath "/foo/test/{path}").
  rewrite Hpath, findCommonParameters_testRoutes, Hfresh.
  rewrite map_to_list_singleton, rangeOrder_singleton.
  reflexivity.
Qed.

Lemma operation_parameters o route inPathCommonParamsMap doc :
  snd (common.GetOperationIDAndTags (config o) route) = None ->
  restful.ResponseErrors route = ∅ ->
  restful.WriteSample route = None ->
  snd (fst (buildOperations o route inPathCommonParamsMap doc))
  = snd (operationParameters (restful.ParameterDocs route)
           inPathCommonParamsMap [])
  /\ spec3.OParameters (fst (fst (buildOperations o route inPathCommonParamsMap doc)))
     = fst (operationParameters (restful.ParameterDocs route)
              inPathCommonParamsMap []).
Proof.
  intros Hid Hnone Hsample.
  destruct (buildOperations_unfold o route inPathCommonParamsMap doc
              ∅ doc ∅ doc Hid (responseErrorsLoop_none o route doc Hnone)
              (writeSampleResponse_none o route ∅ doc Hsample))
    as (_ & _ & Hparams & Herr & _).
  by rewrite Herr, Hparams.
Qed.

(** C2, as the code has it.  The document built for the path
    [/foo/test/{path}] with its GET and POST routes has one path item; it
    carries the hoisted parameter [path] and no operation, the loop that
    is to build the operations being empty.  [buildOperations], called on
    the two routes with the hoisted map, returns for GET an operation
    whose parameters are [pretty] alone and for POST an operation without
    parameters. *)
Theorem end_to_end_hoisting o :
  HasPrefix (common.IgnorePrefixes (config o)) "/foo" = false ->
  HasPrefix (common.IgnorePrefixes (config o)) "/foo/test/{path}" = false ->
  snd (common.GetOperationIDAndTags (config o) getRoute) = None ->
  snd (common.GetOperationIDAndTags (config o) postRoute) = None ->
  exists doc hoisted,
    BuildOpenAPISpec [fooService] (config o) = (Some doc, None)
    /\ spec3.Paths doc = {[ "/foo/test/{path}" := newPath [pathParameter] ]}
    /\ findCommonParameters [getRoute; postRoute] = (hoisted, None)
    /\ dom hoisted = {[ ("path", restful.PathParameterKind) ]}
    /\ snd (fst (buildOperations o getRoute hoisted doc)) = None
    /\ spec3.OParameters (fst (fst (buildOperations o getRoute hoisted doc)))
       = [prettyParameter]
    /\ snd (fst (buildOperations o postRoute hoisted doc)) = None
    /\ spec3.OParameters (fst (fst (buildOperations o postRoute hoisted doc)))
       = [].
Proof.
  intros Hroot Hpath Hget Hpost.
  exists (setPath "/foo/test/{path}" (newPath [pathParameter])
            (snd (newOpenAPI (config o)))),
         {[ ("path", restful.PathParameterKind) := pathParameter ]}.
  split; [|split; [|split; [|split]]].
  - rewrite BuildOpenAPISpec_unfold.
    rewrite buildOpenAPISpec_fooService; [done | done | done | apply lookup_empty].
  - simpl. by rewrite insert_empty.
  - apply findCommonParameters_testRoutes.
  - by rewrite dom_singleton_L.
  - destruct (operation_parameters o getRoute
                {[ ("path", restful.PathParameterKind) := pathParameter ]}
                (setPath "/foo/test/{path}" (newPath [pathParameter])
                   (snd (newOpenAPI (config o)))) Hget eq_refl eq_refl)
      as [-> ->].
    destruct (operation_parameters o postRoute
                {[ ("path", restful.PathParameterKind) := pathParameter ]}
                (setPath "/foo/test/{path}" (newPath [pathParameter])
                   (snd (newOpenAPI (config o)))) Hpost eq_refl eq_refl)
      as [-> ->].
    repeat split; vm_compute; reflexivity.
Qed.

(** C10. [BuildOpenAPISpec] returns a document whatever else it returns,
    and there are inputs for which it returns an error together with a
    document that holds a path installed before the failure. *)
Theorem BuildOpenAPISpec_returns_document :
  (forall webServices cfg,
     exists doc, fst (BuildOpenAPISpec webServices cfg) = Some doc)
  /\ (exists webServices cfg doc err,
        BuildOpenAPISpec webServices cfg = (Some doc, Some err)
        /\ is_Some (spec3.Paths doc !! "/foo/test/{path}")).
Proof.
  split.
  - intros webServices cfg. rewrite BuildOpenAPISpec_unfold. eauto.
  - exists [fooService; brokenService], testConfig.
    eexists _, (UnsupportedParameterKind restful.FormParameterKind).
    rewrite BuildOpenAPISpec_unfold.
    rewrite buildOpenAPISpec_fooService;
      [|apply HasPrefix_nil|apply HasPrefix_nil|apply lookup_empty].
    cbn [buildOpenAPISpec]. simpl common.IgnorePrefixes.
    rewrite HasPrefix_nil.
    change (buildParameters (restful.PathParameters brokenService))
      with ([{| spec3.Name := "fparam"; spec3.In := "";
                spec3.Description := "a test form parameter";
                spec3.Required := false |}],
            Some (UnsupportedParameterKind restful.FormParameterKind)).
    cbv iota beta. split; [reflexivity|].
    simpl. rewrite lookup_insert_eq. eauto.
Qed.

End EndToEnd.

(** ** Failing builds *)
Section Failures.
Context {collab : Collaborators}.
Implicit Types (o : openAPI) (doc : spec3.OpenAPI).
Implicit Types (route : restful.Route) (routes : list restful.Route).
Implicit Types (key : ParamKey).

(** When no route declares a key twice and the path parameters are
    required, the one error [findCommonParameters] can return is that of
    an unsupported kind. *)
Lemma findCommonParameters_error_kind routes e :
  (forall route, route ∈ routes -> NoDup (keysOf route)) ->
  (forall route param,
     route ∈ routes -> param ∈ restful.ParameterDocs route ->
     restful.Kind (restful.Data param) = restful.PathParameterKind ->
     restful.Required (restful.Data param) = true) ->
  snd (findCommonParameters routes) = Some e ->
  exists kind, e = UnsupportedParameterKind kind /\ ~ supportedKind kind.
Proof.
  intros Hnd Hrequired. unfold findCommonParameters.
  pose proof (scanRoutes_NoDup routes emptyTally Hnd) as Hscan.
  destruct (scanRoutes routes emptyTally) as [[e'|] t] eqn:Hs; [done|].
  destruct (hoistLoop _ _ _ _) as [m [e'|]] eqn:Hloop; [|done].
  simpl. intros [= <-].
  apply hoistLoop_error in Hloop as (k & Hcount & _ & Hbuild).
  apply elem_of_counts in Hcount.
  pose proof (scanRoutes_tally _ _ Hs) as [_ Htally].
  destruct (Htally _ _ Hcount) as [_ (r & q & Hr & Hq & Hkey & Hdata)].
  rewrite Hdata in Hbuild. simpl in Hbuild.
  apply buildParameter_error in Hbuild as [(_ & Hkind & Hreq) | [-> Hkind]].
  - rewrite (Hrequired r q Hr Hq Hkind) in Hreq. done.
  - eauto.
Qed.

(** C5, as the code has it.  A group of routes whose resolved path the
    document already has stops the build with an error and leaves the
    document as it is: that error is the one of [findCommonParameters] on
    the routes of the group when there is one, as the parameters are
    hoisted before the path is looked up, and the duplicate-path error
    otherwise.  So a build that ends without error met each path once, and
    its document has exactly the paths it met. *)
Theorem duplicate_path_rejected webServices (cfg : common.Config) :
  (forall o commonParams path routes groups doc,
     is_Some (spec3.Paths doc !! resolvePath path) ->
     HasPrefix (common.IgnorePrefixes (config o)) (resolvePath path) = false ->
     pathsLoop o commonParams ((path, routes) :: groups) doc
     = (Some (default (DuplicatePath (resolvePath path))
                      (snd (findCommonParameters routes))), doc))
  /\ (forall doc,
        BuildOpenAPISpec webServices cfg = (Some doc, None) ->
        NoDup (visitedPaths (fst (newOpenAPI cfg)) webServices)
        /\ dom (spec3.Paths doc)
           = list_to_set (visitedPaths (fst (newOpenAPI cfg)) webServices)).
Proof.
  split.
  - intros o commonParams path routes groups doc.
    apply pathsLoop_duplicate.
  - intros doc. rewrite BuildOpenAPISpec_unfold. intros [= <- Herr].
    destruct (buildOpenAPISpec _ _ _) as [e d] eqn:Hbuild.
    simpl in Herr. subst e.
    apply buildOpenAPISpec_installs in Hbuild as (Hnd & _ & Hdom & _).
    split; [done|]. simpl in *. rewrite Hdom, dom_empty_L. set_solver.
Qed.

(** C9, as the code has it.  When every route of a group declares a key
    whose kind is none of path, query, header and body,
    [findCommonParameters] returns an error for the group, the key is not
    in the map it returns, and the build of web services that hold the
    group fails, unless the group's path or its web service is ignored.
    The error is that of an unsupported kind when no route of the group
    declares a key twice and every path parameter of the group is
    required. *)
Theorem unsupported_common_parameter_fails webServices (cfg : common.Config)
    w path routes key :
  w ∈ webServices ->
  HasPrefix (common.IgnorePrefixes cfg) (restful.RootPath w) = false ->
  groupRoutesByPath (restful.Routes w) !! path = Some routes ->
  HasPrefix (common.IgnorePrefixes cfg) (resolvePath path) = false ->
  ~ supportedKind (snd key) -> snd key <> restful.BodyParameterKind ->
  declaredOnEvery key routes ->
  (exists err,
     snd (findCommonParameters routes) = Some err
     /\ ((forall route, route ∈ routes -> NoDup (keysOf route)) ->
         (forall route param,
            route ∈ routes -> param ∈ restful.ParameterDocs route ->
            restful.Kind (restful.Data param) = restful.PathParameterKind ->
            restful.Required (restful.Data param) = true) ->
         exists kind, err = UnsupportedParameterKind kind
                      /\ ~ supportedKind kind))
  /\ fst (findCommonParameters routes) !! key = None
  /\ snd (BuildOpenAPISpec webServices cfg) <> None.
Proof.
  intros Hw Hroot Hgroup Hpath Hkind Hbody Hall.
  pose proof (groupRoutesByPath_nonempty _ _ _ Hgroup) as Hne.
  destruct (findCommonParameters_unsupported routes key Hne Hkind Hbody Hall)
    as [Hfails Hkey].
  split; [|split; [done|]].
  - destruct (snd (findCommonParameters routes)) as [err|] eqn:Herr; [|done].
    exists err. split; [done|]. intros Hnd Hrequired.
    by apply (findCommonParameters_error_kind routes).
  - rewrite BuildOpenAPISpec_unfold. simpl.
    by apply (buildOpenAPISpec_fails _ _ _ w path routes).
Qed.

End Failures.

(** ** The properties at the inputs of the test, and inputs that tell the
    code from what is said of it *)



(** C2 fails as it is stated.  The path item of the built document has no
    GET and no POST operation: there is no operation in the document whose
    parameter list one could read. *)
Lemma built_path_has_no_operations :
  exists doc item,
    BuildOpenAPISpec (collab := listedOrder) [fooService] testConfig
    = (Some doc, None)
    /\ spec3.Paths doc !! "/foo/test/{path}" = Some item
    /\ spec3.Parameters item = [pathParameter]
    /\ spec3.Get item = None /\ spec3.Post item = None
    /\ ~ (exists operation,
            spec3.Get item = Some operation
            /\ spec3.OParameters operation = [prettyParameter]).
Proof.
  exists (setPath "/foo/test/{path}" (newPath [pathParameter]) emptyDocument),
         (newPath [pathParameter]).
  split; [vm_compute; reflexivity|].
  split; [apply lookup_insert_eq|].
  repeat split. intros (operation & Hget & _). discriminate Hget.
Qed.

Lemma end_to_end_hoisting_witness :
  exists doc hoisted,
    BuildOpenAPISpec (collab := listedOrder) [fooService] testConfig
    = (Some doc, None)
    /\ spec3.Paths doc = {[ "/foo/test/{path}" := newPath [pathParameter] ]}
    /\ findCommonParameters (collab := listedOrder) [getRoute; postRoute]
       = (hoisted, None)
    /\ dom hoisted = {[ ("path", restful.PathParameterKind) ]}
    /\ snd (fst (buildOperations (collab := listedOrder) testBuilder getRoute
                   hoisted doc)) = None
    /\ spec3.OParameters
         (fst (fst (buildOperations (collab := listedOrder) testBuilder getRoute
                      hoisted doc))) = [prettyParameter]
    /\ snd (fst (buildOperations (collab := listedOrder) testBuilder postRoute
                   hoisted doc)) = None
    /\ spec3.OParameters
         (fst (fst (buildOperations (collab := listedOrder) testBuilder
                      postRoute hoisted doc))) = [].
Proof.
  apply (end_to_end_hoisting (collab := listedOrder) testBuilder);
    reflexivity.
Defined.

Lemma buildDefinitionForType_memoised_witness :
  buildDefinitionForType (collab := listedOrder) diamondBuilder "pkg.Top"
    emptyDocument
  = (("#/components/schemas/pkg.Top", None), diamondDocument)
  /\ buildDefinitionForType (collab := listedOrder) diamondBuilder "pkg.Top"
       diamondDocument
     = (("#/components/schemas/pkg.Top", None), diamondDocument)
  /\ is_Some (spec3.Schemas diamondDocument !! "pkg.Leaf")
  /\ size (spec3.Schemas diamondDocument) = 4%nat.
Proof.
  assert (buildDefinitionForType (collab := listedOrder) diamondBuilder
            "pkg.Top" emptyDocument
          = (("#/components/schemas/pkg.Top", None), diamondDocument)) as Hfirst
    by (vm_compute; reflexivity).
  split; [exact Hfirst|].
  split; [exact (proj1 (buildDefinitionForType_memoised (collab := listedOrder)
                          diamondBuilder "pkg.Top" emptyDocument _ _ Hfirst))|].
  split; [vm_compute; eauto | vm_compute; reflexivity].
Defined.


(** C5 fails as it is stated.  Two web services serve [/foo/test/{path}];
    the routes of the second have a form parameter, and the build fails
    with the error of that parameter, not with the duplicate-path error. *)
Lemma duplicate_path_other_error :
  visitedPaths (collab := listedOrder) (fst (newOpenAPI testConfig))
    [fooService; formService]
  = ["/foo/test/{path}"; "/foo/test/{path}"]
  /\ snd (BuildOpenAPISpec (collab := listedOrder) [fooService; formService]
            testConfig)
     = Some (UnsupportedParameterKind restful.FormParameterKind)
  /\ snd (BuildOpenAPISpec (collab := listedOrder) [fooService; formService]
            testConfig)
     <> Some (DuplicatePath "/foo/test/{path}").
Proof.
  split; [vm_compute; reflexivity|].
  assert (snd (BuildOpenAPISpec (collab := listedOrder)
                 [fooService; formService] testConfig)
          = Some (UnsupportedParameterKind restful.FormParameterKind)) as Herr
    by (vm_compute; reflexivity).
  split; [exact Herr|]. rewrite Herr. discriminate.
Qed.

Lemma duplicate_path_rejected_witness :
  pathsLoop (collab := listedOrder) testBuilder []
    [("/foo/test/{path:*}", [getRoute])]
    (setPath "/foo/test/{path}" (newPath [pathParameter]) emptyDocument)
  = (Some (DuplicatePath "/foo/test/{path}"),
     setPath "/foo/test/{path}" (newPath [pathParameter]) emptyDocument)
  /\ NoDup (visitedPaths (collab := listedOrder) (fst (newOpenAPI testConfig))
              [fooService])
  /\ visitedPaths (collab := listedOrder) (fst (newOpenAPI testConfig))
       [fooService] = ["/foo/test/{path}"].
Proof.
  pose proof (duplicate_path_rejected (collab := listedOrder) [fooService]
                testConfig) as [Hstep Hbuild].
  split; [|split].
  - rewrite (Hstep testBuilder [] "/foo/test/{path:*}" [getRoute] []
               (setPath "/foo/test/{path}" (newPath [pathParameter])
                  emptyDocument)).
    + vm_compute. reflexivity.
    + vm_compute. eauto.
    + vm_compute. reflexivity.
  - apply (Hbuild (setPath "/foo/test/{path}" (newPath [pathParameter])
                     emptyDocument)).
    vm_compute. reflexivity.
  - vm_compute. reflexivity.
Defined.

Lemma common_responses_never_override_witness :
  spec3.StatusCodeResponses
    (spec3.OResponses
       (fst (fst (buildOperations (collab := listedOrder) commonResponsesBuilder
                    returningRoute ∅ emptyDocument)))) !! 401%Z
  = Some (Some unauthorized)
  /\ spec3.StatusCodeResponses
       (spec3.OResponses
          (fst (fst (buildOperations (collab := listedOrder)
                       commonResponsesBuilder returningRoute ∅ emptyDocument))))
       !! 200%Z
     <> Some (Some commonOK).
Proof.
  pose proof (common_responses_never_override (collab := listedOrder)
                commonResponsesBuilder returningRoute ∅ emptyDocument
                (fst (fst (responseErrorsLoop (collab := listedOrder)
                             commonResponsesBuilder
                             (restful.Consumes returningRoute)
                             (map_to_list (restful.ResponseErrors returningRoute))
                             ∅ emptyDocument)))
                emptyDocument
                (fst (fst (responseErrorsLoop (collab := listedOrder)
                             commonResponsesBuilder
                             (restful.Consumes returningRoute)
                             (map_to_list (restful.ResponseErrors returningRoute))
                             ∅ emptyDocument)))
                emptyDocument) as Hmerge.
  split.
  - rewrite (Hmerge 401%Z); vm_compute; reflexivity.
  - rewrite (Hmerge 200%Z); vm_compute; [discriminate | reflexivity..].
Defined.

(** C8 fails as it is stated.  The route has no declared response and no
    write sample; the configuration has common responses, so the operation
    has status-code responses and no default response. *)
Lemma common_responses_suppress_default :
  restful.ResponseErrors getRoute = ∅
  /\ restful.WriteSample getRoute = None
  /\ snd (fst (buildOperations (collab := listedOrder) commonResponsesBuilder
                 getRoute ∅ emptyDocument)) = None
  /\ spec3.StatusCodeResponses
       (spec3.OResponses
          (fst (fst (buildOperations (collab := listedOrder)
                       commonResponsesBuilder getRoute ∅ emptyDocument))))
     <> ∅
  /\ spec3.Default
       (spec3.OResponses
          (fst (fst (buildOperations (collab := listedOrder)
                       commonResponsesBuilder getRoute ∅ emptyDocument))))
     = None
  /\ common.DefaultResponse (config commonResponsesBuilder)
     = Some defaultResponse.
Proof.
  split; [reflexivity|]. split; [reflexivity|].
  split; [vm_compute; reflexivity|].
  split; [|split; [vm_compute; reflexivity | reflexivity]].
  intros Hempty.
  assert (spec3.StatusCodeResponses
            (spec3.OResponses
               (fst (fst (buildOperations (collab := listedOrder)
                            commonResponsesBuilder getRoute ∅ emptyDocument))))
            !! 401%Z = Some (Some unauthorized)) as Hcode
    by (vm_compute; reflexivity).
  rewrite Hempty, lookup_empty in Hcode. discriminate Hcode.
Qed.

Lemma default_response_fallback_witness :
  spec3.StatusCodeResponses
    (spec3.OResponses
       (fst (fst (buildOperations (collab := listedOrder) defaultOnlyBuilder
                    getRoute ∅ emptyDocument)))) = ∅
  /\ spec3.Default
       (spec3.OResponses
          (fst (fst (buildOperations (collab := listedOrder) defaultOnlyBuilder
                       getRoute ∅ emptyDocument))))
     = Some defaultResponse.
Proof.
  destruct (default_response_fallback (collab := listedOrder)
              defaultOnlyBuilder getRoute ∅ emptyDocument
              (fst (fst (buildOperations (collab := listedOrder)
                           defaultOnlyBuilder getRoute ∅ emptyDocument)))
              emptyDocument)
    as (Hcodes & Hdefault & _).
  - reflexivity.
  - reflexivity.
  - reflexivity.
  - vm_compute. reflexivity.
  - split; [exact Hcodes | exact Hdefault].
Defined.

(** C9 fails as it is stated.  A route declares the form parameter twice,
    and the error is that of the duplicate; a route declares a path
    parameter that is not required next to the form parameter, and the
    error is that of the path parameter when the [range] meets it first. *)
Lemma unsupported_kind_other_error :
  (declaredOnEvery ("fparam", restful.FormParameterKind) [formTwiceRoute]
   /\ ~ supportedKind restful.FormParameterKind
   /\ restful.FormParameterKind <> restful.BodyParameterKind
   /\ findCommonParameters (collab := listedOrder) [formTwiceRoute]
      = (∅, Some (DuplicateParameter "fparam")))
  /\ (declaredOnEvery ("fparam", restful.FormParameterKind)
        [optionalPathFormRoute]
      /\ snd (findCommonParameters (collab := listedOrder)
                [optionalPathFormRoute])
         = Some (InvalidRequiredness "path")).
Proof.
  split; [split; [|split; [|split]] | split].
  - intros r Hr. apply list_elem_of_singleton in Hr as ->. left.
  - intros [H | [H | H]]; discriminate H.
  - discriminate.
  - vm_compute. reflexivity.
  - intros r Hr. apply list_elem_of_singleton in Hr as ->. right. left.
  - vm_compute. reflexivity.
Qed.

Lemma unsupported_common_parameter_fails_witness :
  (exists err,
     snd (findCommonParameters (collab := listedOrder) [formRoute]) = Some err
     /\ exists kind, err = UnsupportedParameterKind kind /\ ~ supportedKind kind)
  /\ fst (findCommonParameters (collab := listedOrder) [formRoute])
       !! ("fparam", restful.FormParameterKind) = None
  /\ snd (BuildOpenAPISpec (collab := listedOrder) [formService] testConfig)
     <> None.
Proof.
  destruct (unsupported_common_parameter_fails (collab := listedOrder)
              [formService] testConfig formService "/foo/test/{path}"
              [formRoute] ("fparam", restful.FormParameterKind))
    as ((err & Herr & Hkind) & Hkey & Hbuild).
  - left.
  - reflexivity.
  - vm_compute. reflexivity.
  - reflexivity.
  - intros [H | [H | H]]; discriminate H.
  - discriminate.
  - intros r Hr. apply list_elem_of_singleton in Hr as ->. right. left.
  - split; [|split; [exact Hkey | exact Hbuild]].
    exists err. split; [exact Herr|]. apply Hkind.
    + intros r Hr. apply list_elem_of_singleton in Hr as ->.
      apply (bool_decide_unpack _). vm_compute. exact I.
    + intros r p Hr Hp Hpath. apply list_elem_of_singleton in Hr as ->.
      simpl in Hp. apply elem_of_cons in Hp as [-> | Hp]; [reflexivity|].
      apply list_elem_of_singleton in Hp as ->. discriminate Hpath.
Defined.

(** * Further properties of the builder *)

(** ** Web-service parameters *)
Section BuildParameters.
Implicit Types (restParam : list restful.Parameter_).

Lemma buildParameters_cons v restParam :
  buildParameters (v :: restParam)
  = match buildParameter (restful.Data v) with
    | (p, Some err) => ([p], Some err)
    | (p, None) =>
        (p :: fst (buildParameters restParam), snd (buildParameters restParam))
    end.
Proof.
  cbn [buildParameters]. destruct (buildParameter (restful.Data v)) as [p [e|]];
    [done|]. by destruct (buildParameters restParam).
Qed.

(** X1.  [buildParameters] returns no error exactly when every parameter builds,
    and then its list is the built parameters, one for each declaration and
    in their order; an error it returns is that of the first parameter that
    does not build. *)
Theorem buildParameters_all_or_first_error restParam :
  (snd (buildParameters restParam) = None <->
     forall p, p ∈ restParam -> snd (buildParameter (restful.Data p)) = None)
  /\ (snd (buildParameters restParam) = None ->
      fst (buildParameters restParam)
      = (fun p => fst (buildParameter (restful.Data p))) <$> restParam)
  /\ (forall e,
        snd (buildParameters restParam) = Some e ->
        exists before p after,
          restParam = (before ++ p :: after)%list
          /\ (forall q, q ∈ before ->
                snd (buildParameter (restful.Data q)) = None)
          /\ snd (buildParameter (restful.Data p)) = Some e).
Proof.
  induction restParam as [|v rest (IHiff & IHok & IHerr)].
  - split; [|split]; cbn [buildParameters fst snd]; try done.
    split; [intros _ p Hp; inversion Hp | done].
  - rewrite buildParameters_cons.
    destruct (buildParameter (restful.Data v)) as [p [e|]] eqn:Hv;
      cbn [fst snd].
    + split; [|split]; try done.
      * split; [done|]. intros Hall.
        specialize (Hall v (list_elem_of_here _ _)). by rewrite Hv in Hall.
      * intros e' [= <-]. exists [], v, rest.
        split; [done|]. split; [intros q Hq; inversion Hq | by rewrite Hv].
    + split; [|split].
      * rewrite IHiff. split.
        -- intros Hall q [-> | Hq]%elem_of_cons; [by rewrite Hv | by apply Hall].
        -- intros Hall q Hq. apply Hall. by right.
      * intros Herr. rewrite fmap_cons, Hv. cbn [fst]. f_equal. by apply IHok.
      * intros e Herr.
        destruct (IHerr e Herr) as (before & q & after & -> & Hb & Hq).
        exists (v :: before), q, after. split; [done|]. split; [|done].
        intros r [-> | Hr]%elem_of_cons; [by rewrite Hv | by apply Hb].
Qed.

End BuildParameters.

(** ** More on hoisting *)
Section HoistingMore.
Implicit Types (k key : ParamKey).
Implicit Types (route : restful.Route) (routes : list restful.Route).
Implicit Types (entries : list (ParamKey * nat)).
Implicit Types (dataMap : gmap ParamKey restful.ParameterData).
Implicit Types (m acc : gmap ParamKey spec3.Parameter_).

(** The parameters a successful run of the second loop adds were built
    without error. *)
Lemma hoistLoop_built {collab : Collaborators} entries n dataMap acc m k p :
  hoistLoop entries n dataMap acc = (m, None) ->
  m !! k = Some p ->
  acc !! k = Some p
  \/ buildParameter (default zeroParameterData (dataMap !! k)) = (p, None).
Proof.
  revert acc. induction entries as [|[key count] entries IH]; intros acc Hloop Hk.
  - simpl in Hloop. injection Hloop as <-. by left.
  - simpl in Hloop.
    destruct ((count =? n)%nat && negb (_ =? _)%Z); [|by eapply IH].
    destruct (buildParameter (default zeroParameterData (dataMap !! key)))
      as [q [e|]] eqn:Hbuild; [discriminate|].
    destruct (IH _ Hloop Hk) as [Hacc | Hb]; [|by right].
    destruct (decide (k = key)) as [-> | Hne].
    + rewrite lookup_insert_eq in Hacc. injection Hacc as <-. by right.
    + rewrite lookup_insert_ne in Hacc by done. by left.
Qed.

(** X2.  Every entry of a hoisted map agrees with its key: the parameter has the
    key's name and the location of the key's kind, which is path, query or
    header, and a hoisted path parameter is required. *)
Theorem hoisted_parameters_match_keys {collab : Collaborators}
    routes m (name : string) (kind : Z) (p : spec3.Parameter_) :
  findCommonParameters routes = (m, None) ->
  m !! (name, kind) = Some p ->
  spec3.Name p = name
  /\ ((kind = restful.PathParameterKind /\ spec3.In p = "path"
       /\ spec3.Required p = true)
      \/ (kind = restful.QueryParameterKind /\ spec3.In p = "query")
      \/ (kind = restful.HeaderParameterKind /\ spec3.In p = "header")).
Proof.
  unfold findCommonParameters.
  destruct (scanRoutes routes emptyTally) as [[e|] t] eqn:Hscan; [discriminate|].
  intros Hloop Hp.
  assert (is_Some (m !! (name, kind))) as Hsome by eauto.
  rewrite (hoistLoop_ok _ _ _ _ _ Hloop), lookup_empty in Hsome.
  destruct Hsome as [[? [=]] | [Hcount _]]. apply elem_of_counts in Hcount.
  pose proof (scanRoutes_tally _ _ Hscan) as [_ Htally].
  destruct (Htally _ _ Hcount) as [_ (r & q & _ & _ & Hkey & Hdata)].
  destruct (hoistLoop_built _ _ _ _ _ _ _ Hloop Hp) as [Hempty | Hbuild].
  { by rewrite lookup_empty in Hempty. }
  rewrite Hdata in Hbuild. simpl in Hbuild.
  unfold mapKeyFromParam in Hkey. injection Hkey as Hname Hkind.
  revert Hbuild. unfold buildParameter. rewrite Hname, Hkind.
  destruct (Z.eqb_spec kind restful.PathParameterKind) as [-> | _].
  { destruct (restful.Required (restful.Data q)) eqn:Hreq; simpl; [|done].
    intros [= <-]. simpl. split; [done|]. by left. }
  destruct (Z.eqb_spec kind restful.QueryParameterKind) as [-> | _].
  { intros [= <-]. simpl. split; [done|]. right. by left. }
  destruct (Z.eqb_spec kind restful.HeaderParameterKind) as [-> | _]; [|done].
  intros [= <-]. simpl. split; [done|]. right. by right.
Qed.

(** X3.  [findCommonParameters] returns the duplicate-parameter error exactly
    when some route declares a key twice, and its map is then empty. *)
Theorem duplicate_parameter_iff {collab : Collaborators} routes :
  ((exists name,
      snd (findCommonParameters routes) = Some (DuplicateParameter name))
   <-> ~ (forall route, route ∈ routes -> NoDup (keysOf route)))
  /\ (~ (forall route, route ∈ routes -> NoDup (keysOf route)) ->
      fst (findCommonParameters routes) = ∅).
Proof.
  unfold findCommonParameters.
  pose proof (scanRoutes_NoDup routes emptyTally) as Hnodup.
  pose proof (scanRoutes_ok routes emptyTally) as Hok.
  pose proof (scanRoutes_error routes emptyTally) as Herror.
  destruct (scanRoutes routes emptyTally) as [[e|] t]; simpl in *.
  - destruct (Herror e t eq_refl) as [name ->]. split; [|done].
    split; [|by eauto]. intros _ Hall. by specialize (Hnodup Hall).
  - destruct (Hok t eq_refl) as [Hall _]. split; [|done].
    split; [|done]. intros [name Herr]. exfalso.
    destruct (hoistLoop _ _ _ _) as [m [e|]] eqn:Hloop; [|done].
    apply hoistLoop_error in Hloop as (k & _ & _ & Hbuild).
    simpl in Herr. injection Herr as ->.
    apply buildParameter_error in Hbuild as [[? _] | [? _]]; done.
Qed.

(** X4.  The order in which the [range] of the second loop visits the keys does
    not show in the result: under two orders [findCommonParameters] fails
    or succeeds alike, and when it succeeds the two maps are the same. *)
Theorem findCommonParameters_order_independent (c1 c2 : Collaborators) routes :
  (snd (findCommonParameters (collab := c1) routes) = None
   <-> snd (findCommonParameters (collab := c2) routes) = None)
  /\ (snd (findCommonParameters (collab := c1) routes) = None ->
      findCommonParameters (collab := c1) routes
      = findCommonParameters (collab := c2) routes).
Proof.
  assert (forall c c' : Collaborators,
            snd (findCommonParameters (collab := c) routes) = None ->
            snd (findCommonParameters (collab := c') routes) = None) as Hsame.
  { intros c c'. unfold findCommonParameters.
    destruct (scanRoutes routes emptyTally) as [[e|] t] eqn:Hscan; [done|].
    intros Hc.
    destruct (hoistLoop (rangeOrder (Collaborators := c') _) _ _ _)
      as [m' [e|]] eqn:Hloop'; [|done].
    exfalso. apply hoistLoop_error in Hloop' as (k & Hk & Hbody & Hbuild).
    apply (elem_of_counts (collab := c')) in Hk.
    apply (elem_of_counts (collab := c)) in Hk.
    revert Hc. apply hoistLoop_fails with (k := k); [done | done |].
    by rewrite Hbuild. }
  split; [split; apply Hsame|].
  intros H1. pose proof (Hsame c1 c2 H1) as H2. revert H1 H2.
  unfold findCommonParameters.
  destruct (scanRoutes routes emptyTally) as [[e|] t] eqn:Hscan; [done|].
  destruct (hoistLoop (rangeOrder (Collaborators := c1) _) _ _ _)
    as [m1 [e|]] eqn:Hloop1; [done|].
  destruct (hoistLoop (rangeOrder (Collaborators := c2) _) _ _ _)
    as [m2 [e|]] eqn:Hloop2; [done|].
  intros _ _. f_equal. apply map_eq. intros k.
  pose proof (hoistLoop_ok _ _ _ _ _ Hloop1 k) as Hk1.
  pose proof (hoistLoop_ok _ _ _ _ _ Hloop2 k) as Hk2.
  rewrite lookup_empty in Hk1, Hk2.
  rewrite (elem_of_counts (collab := c1)) in Hk1.
  rewrite (elem_of_counts (collab := c2)) in Hk2.
  destruct (m1 !! k) as [p1|] eqn:Hp1, (m2 !! k) as [p2|] eqn:Hp2.
  - destruct (hoistLoop_value _ _ _ _ _ _ _ Hloop1 Hp1) as [? | ->]; [done|].
    destruct (hoistLoop_value _ _ _ _ _ _ _ Hloop2 Hp2) as [? | ->]; done.
  - exfalso. apply (is_Some_None (A := spec3.Parameter_)).
    apply Hk2. right. destruct Hk1 as [Hk1 _].
    by destruct Hk1 as [[? [=]] | ?]; [eauto|].
  - exfalso. apply (is_Some_None (A := spec3.Parameter_)).
    apply Hk1. right. destruct Hk2 as [Hk2 _].
    by destruct Hk2 as [[? [=]] | ?]; [eauto|].
  - done.
Qed.

End HoistingMore.

(** ** More on the walk over the definitions *)
Section SchemasMore.
Context {collab : Collaborators}.
Implicit Types (o : openAPI) (doc : spec3.OpenAPI) (name : string).
Implicit Types (recurse : string -> spec3.OpenAPI ->
                          option (option BuildError * spec3.OpenAPI)).

(** X5.  On every graph of dependencies, cycles included, the recursion is never
    deeper than the number of definitions plus one: with any larger bound
    it returns, and what it returns is [buildDefinitionRecursively]. *)
Theorem buildDefinitionRecursively_terminates o fuel name doc :
  (size (definitions o) < fuel)%nat ->
  buildDefinitionRecursively_fuel o fuel name doc
  = Some (buildDefinitionRecursively o name doc).
Proof.
  intros Hfuel. apply buildDefinitionRecursively_fuel_enough.
  pose proof (pendingNames_size o doc). lia.
Qed.

(** A property of the document that every call keeps is kept by the loop
    over the dependencies, to its end or to the first error. *)
Lemma dependenciesLoop_keeps (R : spec3.OpenAPI -> spec3.OpenAPI -> Prop)
    recurse vs doc err doc' :
  (forall d, R d d) ->
  (forall d1 d2 d3, R d1 d2 -> R d2 d3 -> R d1 d3) ->
  (forall v d e d', recurse v d = Some (e, d') -> R d d') ->
  dependenciesLoop recurse vs doc = Some (err, doc') ->
  R doc doc'.
Proof.
  intros Hrefl Htrans Hrec. revert doc.
  induction vs as [|v vs IH]; intros doc; simpl.
  - intros [= _ <-]. apply Hrefl.
  - destruct (recurse v doc) as [[[e|] d]|] eqn:Hv; [| |done].
    + intros [= _ <-]. by eapply Hrec.
    + intros Hloop. eapply Htrans; [by eapply Hrec | by apply IH].
Qed.

(** X6.  Whatever [buildDefinitionRecursively] returns, error or not, a schema
    of the document it leaves was there before, unchanged, or is the schema
    of a definition, stored under the display name of that definition at a
    place that was free. *)
Theorem schemas_come_from_definitions o name doc err doc' :
  buildDefinitionRecursively o name doc = (err, doc') ->
  spec3.Paths doc' = spec3.Paths doc
  /\ forall key schema,
       spec3.Schemas doc' !! key = Some schema ->
       spec3.Schemas doc !! key = Some schema
       \/ (spec3.Schemas doc !! key = None
           /\ exists defined item,
                definitions o !! defined = Some item
                /\ key = displayName o defined
                /\ schema = schemaOfDefinition o defined item).
Proof.
  intros Hrun. pose proof (buildDefinitionRecursively_eq o name doc) as Heq.
  rewrite Hrun in Heq. clear Hrun.
  split; [by apply buildDefinitionRecursively_fuel_grows in Heq as [_ ?]|].
  revert Heq. generalize (S (size (definitions o))). intros fuel.
  set (R := fun d d' : spec3.OpenAPI =>
              spec3.Schemas d ⊆ spec3.Schemas d'
              /\ forall key schema,
                   spec3.Schemas d' !! key = Some schema ->
                   spec3.Schemas d !! key = Some schema
                   \/ (spec3.Schemas d !! key = None
                       /\ exists defined item,
                            definitions o !! defined = Some item
                            /\ key = displayName o defined
                            /\ schema = schemaOfDefinition o defined item)).
  assert (forall d, R d d) as Hrefl by (intros d; split; [done | by left]).
  assert (forall d1 d2 d3, R d1 d2 -> R d2 d3 -> R d1 d3) as Htrans.
  { intros d1 d2 d3 [Hsub12 H12] [Hsub23 H23]. split; [by etrans|].
    intros key schema Hkey.
    destruct (H23 key schema Hkey) as [Hold | [Hfree Hdef]]; [by apply H12|].
    right. split; [|done].
    destruct (spec3.Schemas d1 !! key) as [s|] eqn:Hd1; [|done].
    apply (lookup_weaken _ _ _ _ Hd1) in Hsub12. congruence. }
  assert (forall fuel name doc err doc',
            buildDefinitionRecursively_fuel o fuel name doc = Some (err, doc') ->
            R doc doc') as Hall; [|intros Heq; by apply Hall in Heq as [_ ?]].
  clear fuel name doc err doc'.
  induction fuel as [|fuel IH]; intros name doc err doc'; [done|].
  rewrite buildDefinitionRecursively_fuel_S.
  destruct (spec3.Schemas doc !! displayName o name) eqn:Hmemo.
  { intros [= _ <-]. apply Hrefl. }
  destruct (definitions o !! name) as [item|] eqn:Hdef;
    [|intros [= _ <-]; apply Hrefl].
  intros Hloop. apply (dependenciesLoop_keeps R) in Hloop; [|done..].
  eapply Htrans; [|exact Hloop]. split.
  - simpl. by apply insert_subseteq.
  - intros key schema. simpl.
    destruct (decide (key = displayName o name)) as [-> | Hne].
    + rewrite lookup_insert_eq. intros [= <-]. right. split; [done|].
      by exists name, item.
    + rewrite lookup_insert_ne by done. by left.
Qed.

(** X7.  The one error of [buildDefinitionRecursively] is that of a type for
    which there is no definition. *)
Theorem buildDefinitionRecursively_errors o name doc e doc' :
  buildDefinitionRecursively o name doc = (Some e, doc') ->
  exists missing, e = UnknownType missing /\ definitions o !! missing = None.
Proof.
  intros Hrun. pose proof (buildDefinitionRecursively_eq o name doc) as Heq.
  rewrite Hrun in Heq. clear Hrun. revert Heq.
  generalize (S (size (definitions o))). intros fuel. revert name doc doc'.
  induction fuel as [|fuel IH]; intros name doc doc'; [done|].
  rewrite buildDefinitionRecursively_fuel_S.
  destruct (spec3.Schemas doc !! displayName o name); [done|].
  destruct (definitions o !! name) as [item|] eqn:Hdef;
    [|intros [= <- _]; eauto].
  generalize (setSchema (displayName o name)
                (schemaWithExtensions item
                   (snd (common.GetDefinitionName (config o) name))) doc).
  induction (common.Dependencies item) as [|v vs IHvs]; intros d; simpl; [done|].
  destruct (buildDefinitionRecursively_fuel o fuel v d) as [[[e'|] d1]|] eqn:Hv;
    [| |done].
  - intros [= <- _]. by eapply IH.
  - apply IHvs.
Qed.

(** X8.  A failed resolution is not undone.  When the type has a definition and
    one of the types it reaches has none, the error comes back and the
    schema of the type stays in the document: resolving the same type again
    returns no error and changes nothing. *)
Theorem failed_resolution_is_kept o name item doc e doc' :
  definitions o !! name = Some item ->
  buildDefinitionRecursively o name doc = (Some e, doc') ->
  is_Some (spec3.Schemas doc' !! displayName o name)
  /\ buildDefinitionRecursively o name doc' = (None, doc').
Proof.
  intros Hdef Hrun. pose proof (buildDefinitionRecursively_eq o name doc) as Heq.
  rewrite Hrun in Heq. clear Hrun.
  rewrite buildDefinitionRecursively_fuel_S, Hdef in Heq.
  destruct (spec3.Schemas doc !! displayName o name) eqn:Hmemo; [done|].
  apply dependenciesLoop_grows in Heq as [Hsub _];
    [|apply buildDefinitionRecursively_fuel_grows].
  assert (is_Some (spec3.Schemas doc' !! displayName o name)) as Hpresent.
  { eexists. eapply lookup_weaken; [|exact Hsub]. simpl. apply lookup_insert_eq. }
  split; [done | by apply buildDefinitionRecursively_memo].
Qed.

(** The walk keeps the schema map closed under dependencies, the
    definitions still being walked left out. *)
Lemma buildDefinitionRecursively_fuel_closed o fuel name doc doc'
    (pending : gset string) :
  (forall n1 n2, displayName o n1 = displayName o n2 -> n1 = n2) ->
  closedUnderDependencies o pending doc ->
  buildDefinitionRecursively_fuel o fuel name doc = Some (None, doc') ->
  closedUnderDependencies o pending doc'.
Proof.
  intros Hinj. revert name doc doc' pending.
  induction fuel as [|fuel IH]; intros name doc doc' pending Hclosed; [done|].
  rewrite buildDefinitionRecursively_fuel_S.
  destruct (spec3.Schemas doc !! displayName o name) eqn:Hmemo.
  { by intros [= <-]. }
  destruct (definitions o !! name) as [item|] eqn:Hdef; [|done].
  set (doc1 := setSchema (displayName o name)
                 (schemaWithExtensions item
                    (snd (common.GetDefinitionName (config o) name))) doc).
  assert (closedUnderDependencies o ({[name]} ∪ pending) doc1) as Hclosed1.
  { intros n it Hn Hpresent Hout d Hd.
    assert (n <> name) as Hne by set_solver.
    assert (displayName o n <> displayName o name) as Hdn
      by (intros Heq; by apply Hne, Hinj).
    simpl in Hpresent. rewrite lookup_insert_ne in Hpresent by done.
    destruct (Hclosed n it Hn Hpresent) with (dependency := d) as [s Hs];
      [set_solver | done |].
    exists (if decide (displayName o name = displayName o d)
            then schemaWithExtensions item
                   (snd (common.GetDefinitionName (config o) name))
            else s).
    simpl. case_decide as Heq.
    - rewrite Heq. apply lookup_insert_eq.
    - by rewrite lookup_insert_ne. }
  assert (forall vs d d',
            closedUnderDependencies o ({[name]} ∪ pending) d ->
            dependenciesLoop (buildDefinitionRecursively_fuel o fuel) vs d
            = Some (None, d') ->
            closedUnderDependencies o ({[name]} ∪ pending) d'
            /\ spec3.Schemas d ⊆ spec3.Schemas d'
            /\ forall v, v ∈ vs ->
                 is_Some (spec3.Schemas d' !! displayName o v)) as Hloop.
  { induction vs as [|v vs IHvs]; intros d d' Hd; simpl.
    - intros [= <-]. split; [done|]. split; [done|]. intros v Hv. inversion Hv.
    - destruct (buildDefinitionRecursively_fuel o fuel v d)
        as [[[e|] d1]|] eqn:Hv; [done| |done].
      intros Hrest.
      pose proof (IH _ _ _ _ Hd Hv) as Hd1.
      pose proof (buildDefinitionRecursively_fuel_present _ _ _ _ _ Hv) as Hpv.
      apply buildDefinitionRecursively_fuel_grows in Hv as [Hsub1 _].
      destruct (IHvs _ _ Hd1 Hrest) as (Hd' & Hsub & Hvs).
      split; [done|]. split; [by etrans|].
      intros w [-> | Hw]%elem_of_cons; [|by apply Hvs].
      destruct Hpv as [s Hs]. exists s. by eapply lookup_weaken. }
  intros Hrun. destruct (Hloop _ _ _ Hclosed1 Hrun) as (Hclosed' & Hsub & Hdeps).
  intros n it Hn Hpresent Hout d Hd.
  destruct (decide (n = name)) as [-> | Hne].
  - rewrite Hdef in Hn. injection Hn as <-. by apply Hdeps.
  - apply (Hclosed' n it Hn Hpresent); [set_solver | done].
Qed.

(** X9.  When the namer gives different types different display names, a
    resolution without error keeps the schema map closed under
    dependencies: with the schema of a definition the map has the schemas
    of the types the definition depends on, and it has the schema of the
    resolved type. *)
Theorem resolution_closes_dependencies o name doc doc' :
  (forall n1 n2, displayName o n1 = displayName o n2 -> n1 = n2) ->
  closedUnderDependencies o ∅ doc ->
  buildDefinitionRecursively o name doc = (None, doc') ->
  closedUnderDependencies o ∅ doc'
  /\ is_Some (spec3.Schemas doc' !! displayName o name).
Proof.
  intros Hinj Hclosed Hrun.
  pose proof (buildDefinitionRecursively_eq o name doc) as Heq.
  rewrite Hrun in Heq. split.
  - by eapply buildDefinitionRecursively_fuel_closed.
  - by eapply buildDefinitionRecursively_fuel_present.
Qed.

(** X10.  A schema [toSchema] returns is either that of a primitive type, and the
    document is as it was, or a reference to the display name of the type,
    and the document has a schema under that name. *)
Theorem toSchema_reference_present o name doc schema doc' :
  toSchema o name doc = ((Some schema, None), doc') ->
  (fst (GetOpenAPITypeFormat name) <> ""
   /\ doc' = doc
   /\ spec.Type_ (spec.Props schema) = [fst (GetOpenAPITypeFormat name)]
   /\ spec.Format (spec.Props schema) = snd (GetOpenAPITypeFormat name)
   /\ spec.Ref (spec.Props schema) = "")
  \/ (fst (GetOpenAPITypeFormat name) = ""
      /\ spec.Ref (spec.Props schema)
         = "#/components/schemas/" ++ EscapeJsonPointer (displayName o name)
      /\ is_Some (spec3.Schemas doc' !! displayName o name)
      /\ spec3.Schemas doc ⊆ spec3.Schemas doc'
      /\ spec3.Paths doc' = spec3.Paths doc).
Proof.
  unfold toSchema.
  destruct (GetOpenAPITypeFormat name) as [openAPIType openAPIFormat].
  destruct (String.eqb_spec openAPIType "") as [-> | Hprim]; simpl.
  - unfold buildDefinitionForType.
    pose proof (buildDefinitionRecursively_eq o name doc) as Heq.
    destruct (buildDefinitionRecursively o name doc) as [[e|] d]; [done|].
    unfold displayName.
    destruct (common.GetDefinitionName (config o) name) as [defName ext] eqn:Hn.
    intros [= <- <-]. right. simpl.
    pose proof (buildDefinitionRecursively_fuel_present _ _ _ _ _ Heq) as Hp.
    unfold displayName in Hp. rewrite Hn in Hp.
    apply buildDefinitionRecursively_fuel_grows in Heq as [Hsub Hpaths].
    done.
  - intros [= <- <-]. left. done.
Qed.

End SchemasMore.

(** ** More on operations and responses *)
Section OperationsMore.
Context {collab : Collaborators}.
Implicit Types (o : openAPI) (doc : spec3.OpenAPI) (route : restful.Route).
Implicit Types (m declared explicit : gmap Z (option spec3.Response)).
Implicit Types (inPathCommonParamsMap : gmap ParamKey spec3.Parameter_).
Implicit Types (content : gmap string spec3.MediaType).
Implicit Types (mediaTypes : list string).

(** *** The document through [buildOperations] *)

Lemma buildDefinitionRecursively_grows o name doc err doc' :
  buildDefinitionRecursively o name doc = (err, doc') ->
  spec3.Schemas doc ⊆ spec3.Schemas doc' /\ spec3.Paths doc' = spec3.Paths doc.
Proof.
  intros Hrun. pose proof (buildDefinitionRecursively_eq o name doc) as Heq.
  rewrite Hrun in Heq. by eapply buildDefinitionRecursively_fuel_grows.
Qed.

Lemma toSchema_grows o name doc r doc' :
  toSchema o name doc = (r, doc') ->
  spec3.Schemas doc ⊆ spec3.Schemas doc' /\ spec3.Paths doc' = spec3.Paths doc.
Proof.
  unfold toSchema, buildDefinitionForType.
  destruct (GetOpenAPITypeFormat name) as [openAPIType openAPIFormat].
  destruct (negb _); [by intros [= _ <-]|].
  destruct (buildDefinitionRecursively o name doc) as [[e|] d] eqn:Hrun;
    [|destruct (common.GetDefinitionName (config o) name)];
    intros [= _ <-]; by eapply buildDefinitionRecursively_grows.
Qed.

Lemma buildResponse_grows o model description mediaTypes doc r doc' :
  buildResponse o model description mediaTypes doc = (r, doc') ->
  spec3.Schemas doc ⊆ spec3.Schemas doc' /\ spec3.Paths doc' = spec3.Paths doc.
Proof.
  unfold buildResponse.
  destruct (toSchema o (GetCanonicalTypeName model) doc) as [[schema [e|]] d]
    eqn:Hschema.
  - intros [= _ <-]. by eapply toSchema_grows.
  - destruct (contentLoop _ _ _ _) as [content [e|]];
      intros [= _ <-]; by eapply toSchema_grows.
Qed.

Lemma responseErrorsLoop_grows o consumes resps declared doc r doc' :
  responseErrorsLoop o consumes resps declared doc = (r, doc') ->
  spec3.Schemas doc ⊆ spec3.Schemas doc' /\ spec3.Paths doc' = spec3.Paths doc.
Proof.
  revert declared doc. induction resps as [|[code resp] resps IH];
    intros declared doc; simpl.
  - by intros [= _ <-].
  - destruct (buildResponse o _ _ consumes doc) as [[response [e|]] d] eqn:Hresp.
    + intros [= _ <-]. by eapply buildResponse_grows.
    + intros Hrest. apply buildResponse_grows in Hresp as [Hsub Hpaths].
      apply IH in Hrest as [Hsub' Hpaths']. split; [by etrans | congruence].
Qed.

Lemma writeSampleResponse_grows o route declared doc r doc' :
  writeSampleResponse o route declared doc = (r, doc') ->
  spec3.Schemas doc ⊆ spec3.Schemas doc' /\ spec3.Paths doc' = spec3.Paths doc.
Proof.
  unfold writeSampleResponse.
  destruct (restful.WriteSample route) as [sample|]; [|by intros [= _ <-]].
  destruct (size declared =? 0)%nat; [|by intros [= _ <-]].
  destruct (buildResponse o sample "OK" (restful.Consumes route) doc)
    as [[response e] d] eqn:Hresp.
  intros [= _ <-]. by eapply buildResponse_grows.
Qed.

(** X11.  Whatever [buildOperations] returns, error or not, it leaves the paths
    of the document as they were and the schemas it found in place: it only
    adds schemas. *)
Theorem buildOperations_only_adds_schemas o route inPathCommonParamsMap doc
    result doc' :
  buildOperations o route inPathCommonParamsMap doc = (result, doc') ->
  spec3.Paths doc' = spec3.Paths doc
  /\ spec3.Schemas doc ⊆ spec3.Schemas doc'.
Proof.
  unfold buildOperations.
  destruct (common.GetOperationIDAndTags (config o) route) as [[id tags] [e|]].
  { by intros [= _ <-]. }
  destruct (responseErrorsLoop o _ _ ∅ doc) as [[declared [e|]] doc1] eqn:Hdecl.
  { intros [= _ <-]. by apply responseErrorsLoop_grows in Hdecl as [? ?]. }
  apply responseErrorsLoop_grows in Hdecl as [Hsub1 Hpaths1].
  destruct (writeSampleResponse o route declared doc1)
    as [[explicit [e|]] doc2] eqn:Hsample;
    apply writeSampleResponse_grows in Hsample as [Hsub2 Hpaths2].
  { intros [= _ <-]. split; [congruence | by etrans]. }
  destruct (operationParameters _ _ _) as [parameters err].
  intros [= _ <-]. split; [congruence | by etrans].
Qed.

(** *** What a successful [buildOperations] went through *)

Lemma buildOperations_success o route inPathCommonParamsMap doc operation doc' :
  buildOperations o route inPathCommonParamsMap doc = ((operation, None), doc') ->
  exists declared doc1 explicit,
    snd (common.GetOperationIDAndTags (config o) route) = None
    /\ responseErrorsLoop o (restful.Consumes route)
         (rangeOrder (map_to_list (restful.ResponseErrors route))) ∅ doc
       = ((declared, None), doc1)
    /\ writeSampleResponse o route declared doc1 = ((explicit, None), doc')
    /\ operationParameters (restful.ParameterDocs route) inPathCommonParamsMap []
       = (spec3.OParameters operation, None)
    /\ spec3.StatusCodeResponses (spec3.OResponses operation)
       = mergeCommonResponses o explicit
    /\ spec3.Default (spec3.OResponses operation)
       = (if (size (mergeCommonResponses o explicit) =? 0)%nat
          then common.DefaultResponse (config o) else None).
Proof.
  unfold buildOperations.
  destruct (common.GetOperationIDAndTags (config o) route) as [[id tags] [e|]];
    [done|].
  destruct (responseErrorsLoop o _ _ ∅ doc) as [[declared [e|]] doc1] eqn:Hdecl;
    [done|].
  destruct (writeSampleResponse o route declared doc1)
    as [[explicit [e|]] doc2] eqn:Hsample; [done|].
  destruct (operationParameters _ _ _) as [parameters err] eqn:Hparams.
  intros [= <- -> <-]. exists declared, doc1, explicit.
  repeat split; done.
Qed.

(** *** The parameters of an operation *)

Lemma operationParameters_spec (params : list restful.Parameter_)
    inPathCommonParamsMap (parameters : list spec3.Parameter_) :
  let own := filter (fun param =>
                       inPathCommonParamsMap !! mapKeyFromParam param = None)
                    params in
  (snd (operationParameters params inPathCommonParamsMap parameters) = None <->
     forall param, param ∈ own -> snd (buildParameter (restful.Data param)) = None)
  /\ (snd (operationParameters params inPathCommonParamsMap parameters) = None ->
      fst (operationParameters params inPathCommonParamsMap parameters)
      = (parameters
         ++ ((fun param => fst (buildParameter (restful.Data param))) <$> own))%list).
Proof.
  revert parameters. induction params as [|param params IH]; intros parameters.
  - simpl. split; [|by rewrite app_nil_r].
    split; [intros _ p Hp; inversion Hp | done].
  - cbn [operationParameters]. rewrite filter_cons.
    destruct (inPathCommonParamsMap !! mapKeyFromParam param) as [hoisted|] eqn:Hkey.
    + rewrite decide_False by done. apply IH.
    + rewrite decide_True by done.
      destruct (buildParameter (restful.Data param)) as [p [e|]] eqn:Hbuild.
      * cbn [fst snd]. split; [|done]. split; [done|]. intros Hall.
        specialize (Hall param (list_elem_of_here _ _)). by rewrite Hbuild in Hall.
      * destruct (IH (parameters ++ [p])%list) as [IHiff IHok]. split.
        -- rewrite IHiff. split.
           ++ intros Hall q [-> | Hq]%elem_of_cons;
                [by rewrite Hbuild | by apply Hall].
           ++ intros Hall q Hq. apply Hall. by right.
        -- intros Hok. rewrite (IHok Hok), fmap_cons, Hbuild. cbn [fst].
           by rewrite <- app_assoc.
Qed.

(** X12.  The parameter list of a built operation is made of the declarations of
    the route whose key is not hoisted, built one by one and in the order
    of the route; a declaration whose key is hoisted is not built again. *)
Theorem operation_parameters_exclude_hoisted o route inPathCommonParamsMap doc
    operation doc' :
  buildOperations o route inPathCommonParamsMap doc = ((operation, None), doc') ->
  spec3.OParameters operation
  = (fun param => fst (buildParameter (restful.Data param)))
      <$> ownParameters route inPathCommonParamsMap
  /\ (forall param, param ∈ ownParameters route inPathCommonParamsMap ->
        inPathCommonParamsMap !! mapKeyFromParam param = None
        /\ snd (buildParameter (restful.Data param)) = None)
  /\ length (spec3.OParameters operation)
     = length (ownParameters route inPathCommonParamsMap).
Proof.
  intros (declared & doc1 & explicit & _ & _ & _ & Hparams & _)%buildOperations_success.
  destruct (operationParameters_spec (restful.ParameterDocs route)
              inPathCommonParamsMap []) as [Hiff Hok].
  rewrite Hparams in Hiff, Hok. cbn [fst snd] in Hiff, Hok.
  assert (spec3.OParameters operation
          = (fun param => fst (buildParameter (restful.Data param)))
              <$> ownParameters route inPathCommonParamsMap) as Heq
    by (by apply Hok).
  split; [done|]. split.
  - intros param Hparam. split; [|by apply Hiff].
    by apply list_elem_of_filter in Hparam as [? _].
  - by rewrite Heq, length_fmap.
Qed.

(** *** The media types of a response *)

Lemma contentLoop_spec mediaTypes (schema : option spec.Schema)
    (typeName : string) content :
  (snd (contentLoop mediaTypes schema typeName content) = None <->
     NoDup mediaTypes /\ forall mt, mt ∈ mediaTypes -> content !! mt = None)
  /\ (snd (contentLoop mediaTypes schema typeName content) = None ->
      forall mt,
        fst (contentLoop mediaTypes schema typeName content) !! mt
        = if decide (mt ∈ mediaTypes) then Some {| spec3.Schema := schema |}
          else content !! mt)
  /\ (forall e, snd (contentLoop mediaTypes schema typeName content) = Some e ->
        exists mt, mt ∈ mediaTypes /\ e = DuplicateMediaType mt typeName).
Proof.
  revert content. induction mediaTypes as [|mediaType rest IH]; intros content.
  - cbn [contentLoop fst snd]. split; [|split; [|done]].
    + split; [|done]. intros _. split; [constructor | intros mt Hmt; inversion Hmt].
    + intros _ mt. case_decide as Hmt; [inversion Hmt | done].
  - cbn [contentLoop]. destruct (content !! mediaType) as [present|] eqn:Hpresent.
    + cbn [fst snd]. split; [|split; [done|]].
      * split; [done|]. intros [_ Hfree].
        specialize (Hfree mediaType (list_elem_of_here _ _)). congruence.
      * intros e [= <-]. exists mediaType. split; [left | done].
    + destruct (IH (<[mediaType := {| spec3.Schema := schema |}]> content))
        as (IHiff & IHok & IHerr).
      split; [|split].
      * rewrite IHiff. split.
        -- intros [Hnd Hfree]. split.
           ++ constructor; [|done]. intros Hin. apply Hfree in Hin.
              by rewrite lookup_insert_eq in Hin.
           ++ intros mt [-> | Hmt]%elem_of_cons; [done|].
              apply Hfree in Hmt.
              destruct (decide (mt = mediaType)) as [-> | Hne];
                [by rewrite lookup_insert_eq in Hmt|].
              by rewrite lookup_insert_ne in Hmt.
        -- intros [[Hout Hnd]%NoDup_cons Hfree]. split; [done|].
           intros mt Hmt. rewrite lookup_insert_ne; [|by intros ->].
           apply Hfree. by right.
      * intros Hok mt. rewrite (IHok Hok mt).
        destruct (decide (mt = mediaType)) as [-> | Hne].
        -- rewrite (decide_True (P := mediaType ∈ mediaType :: rest)) by left.
           case_decide; [done|]. by rewrite lookup_insert_eq.
        -- rewrite lookup_insert_ne by done.
           case_decide as Hin.
           ++ by rewrite decide_True by (by right).
           ++ rewrite decide_False; [done|].
              by intros [? | ?]%elem_of_cons.
      * intros e He. destruct (IHerr e He) as (mt & Hmt & ->).
        exists mt. split; [by right | done].
Qed.

(** X13.  Once the schema of the sample is there, [buildResponse] returns a
    response exactly when no media type is listed twice; the response then
    has the description and, under each media type and no other key, the
    schema.  Otherwise the error is that of a media type listed twice, and
    the document keeps what the schema added. *)
Theorem buildResponse_media_types o (model description : string) mediaTypes doc
    (schema : option spec.Schema) doc1 :
  toSchema o (GetCanonicalTypeName model) doc = ((schema, None), doc1) ->
  snd (buildResponse o model description mediaTypes doc) = doc1
  /\ (snd (fst (buildResponse o model description mediaTypes doc)) = None
      <-> NoDup mediaTypes)
  /\ (NoDup mediaTypes ->
      exists response,
        fst (fst (buildResponse o model description mediaTypes doc))
        = Some response
        /\ spec3.RDescription response = description
        /\ dom (spec3.Content response) = list_to_set mediaTypes
        /\ forall mt, mt ∈ mediaTypes ->
             spec3.Content response !! mt = Some {| spec3.Schema := schema |})
  /\ (forall e,
        snd (fst (buildResponse o model description mediaTypes doc)) = Some e ->
        fst (fst (buildResponse o model description mediaTypes doc)) = None
        /\ exists mt, mt ∈ mediaTypes
                      /\ e = DuplicateMediaType mt (GetCanonicalTypeName model)).
Proof.
  intros Hschema. unfold buildResponse. rewrite Hschema.
  destruct (contentLoop_spec mediaTypes schema (GetCanonicalTypeName model) ∅)
    as (Hiff & Hok & Herr).
  destruct (contentLoop mediaTypes schema (GetCanonicalTypeName model) ∅)
    as [content [e|]]; cbn [fst snd] in *.
  - split; [done|]. split; [|split].
    + split; [done|]. intros Hnd. apply Hiff. split; [done|].
      intros mt _. apply lookup_empty.
    + intros Hnd. exfalso. assert (Some e = None) as [=]. apply Hiff.
      split; [done|]. intros mt _. apply lookup_empty.
    + intros e' [= <-]. split; [done|]. by apply Herr.
  - split; [done|]. split; [|split; [|done]].
    + split; [|done]. intros _. by apply Hiff.
    + intros Hnd. eexists. split; [done|]. simpl. split; [done|]. split.
      * apply set_eq. intros mt. rewrite elem_of_dom, elem_of_list_to_set.
        rewrite (Hok eq_refl mt). case_decide; [by eauto|].
        rewrite lookup_empty. split; [by intros [? [=]] | done].
      * intros mt Hmt. rewrite (Hok eq_refl mt). by rewrite decide_True.
Qed.

(** *** The status codes of an operation *)

Lemma responseErrorsLoop_codes o consumes
    (resps : list (Z * restful.ResponseError)) declared doc declared' doc' :
  responseErrorsLoop o consumes resps declared doc = ((declared', None), doc') ->
  dom declared' = dom declared ∪ list_to_set (restful.Code <$> resps.*2).
Proof.
  revert declared doc. induction resps as [|[code resp] resps IH];
    intros declared doc; simpl.
  - intros [= <- _]. set_solver.
  - destruct (buildResponse o _ _ consumes doc) as [[response [e|]] d]; [done|].
    intros Hrest. apply IH in Hrest. rewrite Hrest, dom_insert_L. set_solver.
Qed.

Lemma mergeCommonResponses_dom o explicit :
  dom (mergeCommonResponses o explicit)
  = dom explicit ∪ dom (common.CommonResponses (config o)).
Proof.
  apply set_eq. intros code.
  rewrite elem_of_union, !elem_of_dom, mergeCommonResponses_lookup.
  destruct (explicit !! code) as [r|]; [|split].
  - split; [by left | by eauto].
  - by right.
  - by intros [[? [=]] | ?].
Qed.

(** X14.  The status codes of a built operation are those the route gives it by
    itself, its declared responses or else the 200 of its write sample,
    together with those of the table of common responses; the operation has
    the default response of the configuration exactly when there is no
    status code at all. *)
Theorem operation_status_codes o route inPathCommonParamsMap doc operation doc' :
  buildOperations o route inPathCommonParamsMap doc = ((operation, None), doc') ->
  dom (spec3.StatusCodeResponses (spec3.OResponses operation))
  = explicitCodes route ∪ dom (common.CommonResponses (config o))
  /\ spec3.Default (spec3.OResponses operation)
     = (if decide (explicitCodes route ∪ dom (common.CommonResponses (config o))
                   = ∅)
        then common.DefaultResponse (config o) else None).
Proof.
  intros (declared & doc1 & explicit & _ & Hdecl & Hsample & _ & Hcodes & Hdefault)
    %buildOperations_success.
  assert (dom explicit = explicitCodes route) as Hexplicit.
  { apply responseErrorsLoop_codes in Hdecl. rewrite dom_empty_L in Hdecl.
    assert (list_to_set
              (restful.Code
                 <$> (rangeOrder (map_to_list (restful.ResponseErrors route))).*2)
            = (list_to_set
                 (restful.Code <$> (map_to_list (restful.ResponseErrors route)).*2)
               : gset Z)) as Hperm.
    { apply set_eq. intros code. rewrite !elem_of_list_to_set.
      by rewrite (rangeOrder_perm _ _). }
    rewrite Hperm in Hdecl. unfold explicitCodes. unfold writeSampleResponse in Hsample.
    case_decide as Hnone.
    - rewrite Hnone, map_to_list_empty in Hdecl. simpl in Hdecl.
      assert (declared = ∅) as -> by (apply dom_empty_inv_L; set_solver).
      destruct (restful.WriteSample route) as [sample|].
      + rewrite map_size_empty in Hsample. simpl in Hsample.
        destruct (buildResponse o sample "OK" _ doc1) as [[r e] d].
        injection Hsample as <- _ _. rewrite dom_insert_L, dom_empty_L. set_solver.
      + injection Hsample as <- _. by rewrite dom_empty_L.
    - assert (declared <> ∅) as Hsome.
      { intros ->. rewrite dom_empty_L in Hdecl. apply Hnone.
        apply map_to_list_empty_iff.
        destruct (map_to_list (restful.ResponseErrors route)) as [|[c r] l];
          [done|]. simpl in Hdecl. set_solver. }
      assert ((size declared =? 0)%nat = false) as Hsize.
      { apply Nat.eqb_neq. by rewrite map_size_empty_iff. }
      rewrite Hsize in Hsample.
      destruct (restful.WriteSample route); injection Hsample as <- _;
        set_solver. }
  rewrite Hcodes, Hdefault, mergeCommonResponses_dom, Hexplicit. split; [done|].
  rewrite <- Hexplicit, <- mergeCommonResponses_dom.
  destruct (Nat.eqb_spec (size (mergeCommonResponses o explicit)) 0) as [Hz | Hnz].
  - apply map_size_empty_iff in Hz. rewrite Hz, dom_empty_L.
    by rewrite decide_True.
  - rewrite decide_False; [done|]. intros Hdom. apply Hnz.
    apply map_size_empty_iff. by apply dom_empty_inv_L.
Qed.

End OperationsMore.

(** ** The resolved path *)
Section ResolvePath.

Lemma length_append (p s : string) :
  String.length (p ++ s) = (String.length p + String.length s)%nat.
Proof. induction p as [|c p IH]; simpl; [done | by rewrite IH]. Qed.

Lemma substring_all (s : string) : substring 0 (String.length s) s = s.
Proof. induction s as [|c s IH]; simpl; [done | by rewrite IH]. Qed.

Lemma substring_skip (p s : string) :
  substring (String.length p) (String.length s) (p ++ s) = s.
Proof. induction p as [|c p IH]; simpl; [apply substring_all | done]. Qed.

Lemma substring_take (p s : string) :
  substring 0 (String.length p) (p ++ s) = p.
Proof.
  induction p as [|c p IH]; simpl; [by destruct s | by rewrite IH].
Qed.

Lemma substring_split (s : string) (i : nat) :
  (i <= String.length s)%nat ->
  s = substring 0 i s ++ substring i (String.length s - i) s.
Proof.
  revert i. induction s as [|c s IH]; intros i Hi; simpl in *.
  - by destruct i.
  - destruct i as [|i]; simpl.
    + by rewrite substring_all.
    + change (String c s
              = String c (substring 0 i s
                          ++ substring i (String.length s - i) s)).
      f_equal. apply IH. lia.
Qed.

Lemma HasSuffix_append (p suffix : string) : HasSuffix (p ++ suffix) suffix = true.
Proof.
  unfold HasSuffix. rewrite length_append.
  replace (String.length p + String.length suffix - String.length suffix)%nat
    with (String.length p) by lia.
  rewrite substring_skip, String.eqb_refl.
  apply andb_true_intro. split; [|done]. apply Nat.leb_le. lia.
Qed.

Lemma HasSuffix_inv (s suffix : string) :
  HasSuffix s suffix = true -> exists p, s = p ++ suffix.
Proof.
  unfold HasSuffix. intros [Hlen Heq%String.eqb_eq]%andb_prop.
  apply Nat.leb_le in Hlen.
  exists (substring 0 (String.length s - String.length suffix) s).
  pose proof (substring_split s (String.length s - String.length suffix))
    as Hsplit.
  replace (String.length s - (String.length s - String.length suffix))%nat
    with (String.length suffix) in Hsplit by lia.
  rewrite Heq in Hsplit. apply Hsplit. lia.
Qed.

(** X15.  The path a group is installed under is the path of its routes, but for
    a final [":*}"], which becomes ["}"]: nothing else of a path is
    rewritten, and a path that does not end so is kept. *)
Theorem resolvePath_greedy_marker :
  (forall p, resolvePath (p ++ ":*}") = p ++ "}")
  /\ (forall path, (forall p, path <> p ++ ":*}") -> resolvePath path = path).
Proof.
  split.
  - intros p. unfold resolvePath. rewrite HasSuffix_append, length_append.
    replace (String.length p + String.length ":*}" - 3)%nat
      with (String.length p) by (simpl; lia).
    by rewrite substring_take.
  - intros path Hpath. unfold resolvePath.
    destruct (HasSuffix path ":*}") eqn:Hsuffix; [|done].
    apply HasSuffix_inv in Hsuffix as [p ->]. by destruct (Hpath p).
Qed.

End ResolvePath.

(** ** More on the build *)
Section BuildMore.
Context {collab : Collaborators}.
Implicit Types (o : openAPI) (doc : spec3.OpenAPI).
Implicit Types (route : restful.Route) (routes : list restful.Route).
Implicit Types (groups : list (string * list restful.Route)).
Implicit Types (webServices : list restful.WebService).
Implicit Types (commonParams : list spec3.Parameter_).

Lemma retainedPaths_kept o groups path :
  path ∈ retainedPaths o groups ->
  HasPrefix (common.IgnorePrefixes (config o)) path = false.
Proof. unfold retainedPaths. by intros [? _]%list_elem_of_filter. Qed.

(** Whatever the loop over the groups returns, a path item it leaves was
    there before or is one it made: under a path it kept, with parameters
    and no operation. *)
Lemma pathsLoop_items o commonParams groups doc err doc' :
  pathsLoop o commonParams groups doc = (err, doc') ->
  spec3.Schemas doc' = spec3.Schemas doc
  /\ forall path item,
       spec3.Paths doc' !! path = Some item ->
       spec3.Paths doc !! path = Some item
       \/ (path ∈ retainedPaths o groups
           /\ exists parameters, item = newPath parameters).
Proof.
  revert doc. induction groups as [|[path routes] groups IH]; intros doc.
  - simpl. intros [= _ <-]. split; [done|]. intros p item Hp. by left.
  - rewrite retainedPaths_cons. cbn [pathsLoop].
    destruct (HasPrefix _ (resolvePath path)); [apply IH|].
    destruct (findCommonParameters routes) as [m [e|]].
    { intros [= _ <-]. split; [done|]. intros p item Hp. by left. }
    destruct (spec3.Paths doc !! resolvePath path) as [existing|] eqn:Hpath.
    { intros [= _ <-]. split; [done|]. intros p item Hp. by left. }
    intros Hrest. apply IH in Hrest as [Hschemas Hitems]. split; [done|].
    intros p item Hp. destruct (Hitems p item Hp) as [Hold | [Hin Hnew]].
    + simpl in Hold. destruct (decide (p = resolvePath path)) as [-> | Hne].
      * rewrite lookup_insert_eq in Hold. injection Hold as <-.
        right. split; [left | eauto].
      * rewrite lookup_insert_ne in Hold by done. by left.
    + right. split; [by right | done].
Qed.

Lemma buildOpenAPISpec_items o webServices doc err doc' :
  buildOpenAPISpec o webServices doc = (err, doc') ->
  spec3.Schemas doc' = spec3.Schemas doc
  /\ forall path item,
       spec3.Paths doc' !! path = Some item ->
       spec3.Paths doc !! path = Some item
       \/ (path ∈ visitedPaths o webServices
           /\ exists parameters, item = newPath parameters).
Proof.
  revert doc. induction webServices as [|w webServices IH]; intros doc.
  - simpl. intros [= _ <-]. split; [done|]. intros p item Hp. by left.
  - cbn [buildOpenAPISpec visitedPaths].
    destruct (HasPrefix _ (restful.RootPath w)); [apply IH|].
    destruct (buildParameters _) as [commonParams [e|]].
    { intros [= _ <-]. split; [done|]. intros p item Hp. by left. }
    destruct (pathsLoop _ _ _ _) as [[e|] doc1] eqn:Hloop;
      apply pathsLoop_items in Hloop as [Hschemas1 Hitems1].
    { intros [= _ <-]. split; [done|]. intros p item Hp.
      destruct (Hitems1 p item Hp) as [? | [? ?]]; [by left|].
      right. split; [|done]. apply elem_of_app. by left. }
    intros Hrest. apply IH in Hrest as [Hschemas Hitems].
    split; [congruence|]. intros p item Hp.
    destruct (Hitems p item Hp) as [Hold | [Hin Hnew]].
    + destruct (Hitems1 p item Hold) as [? | [? ?]]; [by left|].
      right. split; [|done]. apply elem_of_app. by left.
    + right. split; [|done]. apply elem_of_app. by right.
Qed.

Lemma visitedPaths_kept o webServices path :
  path ∈ visitedPaths o webServices ->
  HasPrefix (common.IgnorePrefixes (config o)) path = false.
Proof.
  induction webServices as [|w webServices IH]; simpl; [by intros ?%elem_of_nil|].
  intros [Hin | Hin]%elem_of_app; [|by apply IH].
  destruct (HasPrefix _ (restful.RootPath w)); [by apply elem_of_nil in Hin|].
  by eapply retainedPaths_kept.
Qed.

(** X16.  The document [BuildOpenAPISpec] returns, with or without an error, has
    no schema, and each of its path items is under a path the build met
    and did not ignore, and has no operation of any method. *)
Theorem built_document_shape webServices (cfg : common.Config) doc err :
  BuildOpenAPISpec webServices cfg = (Some doc, err) ->
  spec3.Schemas doc = ∅
  /\ forall path item,
       spec3.Paths doc !! path = Some item ->
       path ∈ visitedPaths (fst (newOpenAPI cfg)) webServices
       /\ HasPrefix (common.IgnorePrefixes cfg) path = false
       /\ spec3.Get item = None /\ spec3.Put item = None
       /\ spec3.Post item = None /\ spec3.Delete item = None
       /\ spec3.Options item = None /\ spec3.Head item = None
       /\ spec3.Patch item = None.
Proof.
  rewrite BuildOpenAPISpec_unfold. intros [= <- <-].
  destruct (buildOpenAPISpec _ _ _) as [e d] eqn:Hbuild.
  apply buildOpenAPISpec_items in Hbuild as [Hschemas Hitems]. simpl in *.
  split; [done|]. intros path item Hitem.
  destruct (Hitems path item Hitem) as [Hold | [Hin [parameters ->]]].
  { by rewrite lookup_empty in Hold. }
  split; [done|]. split; [|done].
  by apply (visitedPaths_kept (fst (newOpenAPI cfg)) webServices).
Qed.

(** X17.  A web service whose root path is ignored is skipped whole: the build
    is the build of the web services that are not ignored, whatever the
    parameters and the routes of the others. *)
Theorem ignored_web_services_are_skipped o webServices doc :
  buildOpenAPISpec o webServices doc
  = buildOpenAPISpec o
      (filter (fun w => HasPrefix (common.IgnorePrefixes (config o))
                          (restful.RootPath w) = false) webServices)
      doc.
Proof.
  revert doc. induction webServices as [|w webServices IH]; intros doc; [done|].
  rewrite filter_cons. cbn [buildOpenAPISpec].
  destruct (HasPrefix _ (restful.RootPath w)) eqn:Hroot.
  - rewrite decide_False by done. apply IH.
  - rewrite decide_True by done. cbn [buildOpenAPISpec]. rewrite Hroot.
    destruct (buildParameters _) as [commonParams [e|]]; [done|].
    destruct (pathsLoop _ _ _ _) as [[e|] doc1]; [done | apply IH].
Qed.

(** X18.  A web service that is not ignored and has a parameter of its own that
    does not build makes the build fail. *)
Theorem web_service_parameter_fails webServices (cfg : common.Config) w :
  w ∈ webServices ->
  HasPrefix (common.IgnorePrefixes cfg) (restful.RootPath w) = false ->
  snd (buildParameters (restful.PathParameters w)) <> None ->
  snd (BuildOpenAPISpec webServices cfg) <> None.
Proof.
  intros Hw Hroot Hparams. rewrite BuildOpenAPISpec_unfold. cbn [snd].
  generalize (snd (newOpenAPI cfg)).
  induction webServices as [|w' webServices IH]; intros doc; [inversion Hw|].
  cbn [buildOpenAPISpec]. apply elem_of_cons in Hw as [<- | Hw].
  - simpl in Hroot |- *. rewrite Hroot.
    by destruct (buildParameters _) as [commonParams [e|]].
  - destruct (HasPrefix _ (restful.RootPath w')); [by apply IH|].
    destruct (buildParameters (restful.PathParameters w'))
      as [commonParams [e|]]; [done|].
    destruct (pathsLoop _ _ _ _) as [[e|] doc1]; [done | by apply IH].
Qed.

End BuildMore.

(** ** Paths that resolve alike *)
Section Collisions.
Context {collab : Collaborators}.
Implicit Types (o : openAPI) (doc : spec3.OpenAPI).
Implicit Types (route : restful.Route) (routes : list restful.Route).
Implicit Types (groups : list (string * list restful.Route)).
Implicit Types (webServices : list restful.WebService).

Lemma groupRoutesByPath_fold_has routes (m : gmap string (list restful.Route))
    (path : string) :
  is_Some (m !! path) \/ (exists r, r ∈ routes /\ restful.Path r = path) ->
  is_Some
    (fold_left
       (fun (pathToRoutes : gmap string (list restful.Route)) r =>
          <[restful.Path r :=
              (default [] (pathToRoutes !! restful.Path r) ++ [r])%list]>
            pathToRoutes) routes m !! path).
Proof.
  revert m. induction routes as [|r routes IH]; intros m; simpl.
  - intros [? | (r & Hr & _)]; [done | inversion Hr].
  - intros Hpath. apply IH.
    destruct (decide (restful.Path r = path)) as [<- | Hne].
    + left. rewrite lookup_insert_eq. eauto.
    + destruct Hpath as [Hm | (r' & [-> | Hr']%elem_of_cons & Hp)].
      * left. by rewrite lookup_insert_ne.
      * done.
      * right. eauto.
Qed.

Lemma groupRoutesByPath_has routes r :
  r ∈ routes -> is_Some (groupRoutesByPath routes !! restful.Path r).
Proof. intros Hr. apply groupRoutesByPath_fold_has. right. eauto. Qed.

Lemma retainedPaths_has o groups path routes :
  (path, routes) ∈ groups ->
  HasPrefix (common.IgnorePrefixes (config o)) (resolvePath path) = false ->
  resolvePath path ∈ retainedPaths o groups.
Proof.
  intros Hin Hkeep. unfold retainedPaths. apply list_elem_of_filter.
  split; [done|]. apply list_elem_of_fmap. by exists (path, routes).
Qed.

Lemma retainedPaths_inj o groups path1 routes1 path2 routes2 :
  NoDup (retainedPaths o groups) ->
  (path1, routes1) ∈ groups -> (path2, routes2) ∈ groups ->
  resolvePath path1 = resolvePath path2 ->
  HasPrefix (common.IgnorePrefixes (config o)) (resolvePath path1) = false ->
  NoDup groups.*1 ->
  path1 = path2.
Proof.
  intros Hnd H1 H2 Hsame Hkeep Hkeys.
  induction groups as [|[path routes] groups IH]; [inversion H1|].
  rewrite retainedPaths_cons in Hnd. simpl in Hkeys.
  apply NoDup_cons in Hkeys as [Hfresh Hkeys].
  apply elem_of_cons in H1 as [Heq1 | H1], H2 as [Heq2 | H2].
  - congruence.
  - injection Heq1 as <- <-. rewrite Hkeep in Hnd.
    apply NoDup_cons in Hnd as [Hout _]. exfalso. apply Hout.
    rewrite Hsame. apply (retainedPaths_has o groups path2 routes2); [done|].
    by rewrite <- Hsame.
  - injection Heq2 as <- <-. rewrite <- Hsame, Hkeep in Hnd.
    apply NoDup_cons in Hnd as [Hout _]. exfalso. apply Hout.
    by apply (retainedPaths_has o groups path1 routes1).
  - apply IH; [|done..].
    destruct (HasPrefix _ (resolvePath path)); [done|].
    by apply NoDup_cons in Hnd as [_ ?].
Qed.

Lemma visitedPaths_service o webServices w :
  NoDup (visitedPaths o webServices) ->
  w ∈ webServices ->
  HasPrefix (common.IgnorePrefixes (config o)) (restful.RootPath w) = false ->
  NoDup (retainedPaths o
           (rangeOrder (map_to_list (groupRoutesByPath (restful.Routes w))))).
Proof.
  intros Hnd Hw Hroot.
  induction webServices as [|w' webServices IH]; [inversion Hw|].
  simpl in Hnd. apply NoDup_app in Hnd as (Hhead & _ & Htail).
  apply elem_of_cons in Hw as [<- | Hw]; [|by apply IH].
  by rewrite Hroot in Hhead.
Qed.

(** X19.  Two routes of a web service whose paths differ and resolve to the same
    path, as a path with the greedy marker and the same path without it,
    are two groups for one path item: the build fails, unless the path or
    the web service is ignored. *)
Theorem paths_resolving_alike_fail webServices (cfg : common.Config) w r1 r2 :
  w ∈ webServices ->
  HasPrefix (common.IgnorePrefixes cfg) (restful.RootPath w) = false ->
  r1 ∈ restful.Routes w -> r2 ∈ restful.Routes w ->
  restful.Path r1 <> restful.Path r2 ->
  resolvePath (restful.Path r1) = resolvePath (restful.Path r2) ->
  HasPrefix (common.IgnorePrefixes cfg) (resolvePath (restful.Path r1)) = false ->
  snd (BuildOpenAPISpec webServices cfg) <> None.
Proof.
  intros Hw Hroot Hr1 Hr2 Hdiff Hsame Hkeep.
  rewrite BuildOpenAPISpec_unfold. cbn [snd].
  destruct (buildOpenAPISpec _ _ _) as [[e|] d] eqn:Hbuild; [done|].
  exfalso. apply Hdiff.
  apply buildOpenAPISpec_installs in Hbuild as [Hnd _].
  apply (visitedPaths_service _ _ w) in Hnd; [|done..].
  destruct (groupRoutesByPath_has _ _ Hr1) as [g1 Hg1].
  destruct (groupRoutesByPath_has _ _ Hr2) as [g2 Hg2].
  apply (retainedPaths_inj (fst (newOpenAPI cfg))
           (rangeOrder (map_to_list (groupRoutesByPath (restful.Routes w))))
           (restful.Path r1) g1 (restful.Path r2) g2); try done.
  - by apply rangeOrder_elem_of, elem_of_map_to_list.
  - by apply rangeOrder_elem_of, elem_of_map_to_list.
  - rewrite (rangeOrder_perm _ _). apply NoDup_fst_map_to_list.
Qed.

End Collisions.

(** ** The further properties at concrete inputs *)

Lemma hoisted_parameters_match_keys_witness :
  spec3.Name pathParameter = "path"
  /\ ((restful.PathParameterKind = restful.PathParameterKind
       /\ spec3.In pathParameter = "path"
       /\ spec3.Required pathParameter = true)
      \/ (restful.PathParameterKind = restful.QueryParameterKind
          /\ spec3.In pathParameter = "query")
      \/ (restful.PathParameterKind = restful.HeaderParameterKind
          /\ spec3.In pathParameter = "header")).
Proof.
  apply (hoisted_parameters_match_keys (collab := listedOrder)
           [getRoute; postRoute]
           (fst (findCommonParameters (collab := listedOrder)
                   [getRoute; postRoute]))
           "path" restful.PathParameterKind pathParameter).
  - vm_compute. reflexivity.
  - vm_compute. reflexivity.
Defined.

Lemma buildDefinitionRecursively_terminates_witness :
  buildDefinitionRecursively_fuel cyclicBuilder 3 "pkg.A" emptyDocument
  = Some (buildDefinitionRecursively cyclicBuilder "pkg.A" emptyDocument).
Proof.
  apply (buildDefinitionRecursively_terminates cyclicBuilder 3 "pkg.A"
           emptyDocument).
  vm_compute. lia.
Defined.

Lemma schemas_come_from_definitions_witness :
  spec3.Paths diamondDocument = spec3.Paths emptyDocument
  /\ forall key schema,
       spec3.Schemas diamondDocument !! key = Some schema ->
       spec3.Schemas emptyDocument !! key = Some schema
       \/ (spec3.Schemas emptyDocument !! key = None
           /\ exists defined item,
                definitions diamondBuilder !! defined = Some item
                /\ key = displayName diamondBuilder defined
                /\ schema = schemaOfDefinition diamondBuilder defined item).
Proof.
  apply (schemas_come_from_definitions diamondBuilder "pkg.Top" emptyDocument
           None diamondDocument).
  vm_compute. reflexivity.
Defined.

Lemma buildDefinitionRecursively_errors_witness :
  exists missing,
    UnknownType "pkg.Missing" = UnknownType missing
    /\ definitions danglingBuilder !! missing = None.
Proof.
  apply (buildDefinitionRecursively_errors danglingBuilder "pkg.A"
           emptyDocument (UnknownType "pkg.Missing") danglingDocument).
  vm_compute. reflexivity.
Defined.

Lemma failed_resolution_is_kept_witness :
  is_Some (spec3.Schemas danglingDocument !! displayName danglingBuilder "pkg.A")
  /\ buildDefinitionRecursively danglingBuilder "pkg.A" danglingDocument
     = (None, danglingDocument).
Proof.
  apply (failed_resolution_is_kept danglingBuilder "pkg.A"
           (objectDefinition "A" ["pkg.Missing"]) emptyDocument
           (UnknownType "pkg.Missing") danglingDocument).
  - vm_compute. reflexivity.
  - vm_compute. reflexivity.
Defined.

Lemma resolution_closes_dependencies_witness :
  closedUnderDependencies diamondBuilder ∅ diamondDocument
  /\ is_Some (spec3.Schemas diamondDocument
                !! displayName diamondBuilder "pkg.Top").
Proof.
  apply (resolution_closes_dependencies diamondBuilder "pkg.Top" emptyDocument
           diamondDocument).
  - intros n1 n2 Hsame. exact Hsame.
  - intros name item _ [schema Hschema]. vm_compute in Hschema.
    discriminate Hschema.
  - vm_compute. reflexivity.
Defined.

Lemma toSchema_reference_present_witness :
  exists schema,
    toSchema (collab := listedOrder) diamondBuilder "pkg.Top" emptyDocument
    = ((Some schema, None), diamondDocument)
    /\ spec.Ref (spec.Props schema) = "#/components/schemas/pkg.Top"
    /\ is_Some (spec3.Schemas diamondDocument !! "pkg.Top").
Proof.
  eexists. split; [vm_compute; reflexivity|].
  destruct (toSchema_reference_present (collab := listedOrder) diamondBuilder
              "pkg.Top" emptyDocument
              {| spec.VendorExtensible := None;
                 spec.Props :=
                   {| spec.Description := ""; spec.Type_ := [];
                      spec.Format := "";
                      spec.Ref := "#/components/schemas/pkg.Top" |};
                 spec.SwaggerSchemaProps := "" |} diamondDocument)
    as [(Hprimitive & _) | (_ & Href & Hpresent & _)].
  - vm_compute. reflexivity.
  - exfalso. apply Hprimitive. vm_compute. reflexivity.
  - split; [reflexivity | exact Hpresent].
Defined.

Lemma buildOperations_only_adds_schemas_witness :
  spec3.Paths
    (snd (buildOperations (collab := listedOrder) commonResponsesBuilder
            returningRoute ∅ emptyDocument))
  = spec3.Paths emptyDocument
  /\ spec3.Schemas emptyDocument
     ⊆ spec3.Schemas
         (snd (buildOperations (collab := listedOrder) commonResponsesBuilder
                 returningRoute ∅ emptyDocument)).
Proof.
  apply (buildOperations_only_adds_schemas (collab := listedOrder)
           commonResponsesBuilder returningRoute ∅ emptyDocument
           (fst (buildOperations (collab := listedOrder) commonResponsesBuilder
                   returningRoute ∅ emptyDocument))).
  vm_compute. reflexivity.
Defined.

Lemma operation_parameters_exclude_hoisted_witness :
  spec3.OParameters
    (fst (fst (buildOperations (collab := listedOrder) testBuilder getRoute
                 {[ ("path", restful.PathParameterKind) := pathParameter ]}
                 emptyDocument)))
  = [prettyParameter]
  /\ ownParameters getRoute
       {[ ("path", restful.PathParameterKind) := pathParameter ]}
     = [prettyParam].
Proof.
  destruct (operation_parameters_exclude_hoisted (collab := listedOrder)
              testBuilder getRoute
              {[ ("path", restful.PathParameterKind) := pathParameter ]}
              emptyDocument
              (fst (fst (buildOperations (collab := listedOrder) testBuilder
                           getRoute
                           {[ ("path", restful.PathParameterKind)
                              := pathParameter ]} emptyDocument)))
              emptyDocument) as (Hparams & _ & _).
  - vm_compute. reflexivity.
  - split; [|vm_compute; reflexivity].
    rewrite Hparams. vm_compute. reflexivity.
Defined.

Lemma buildResponse_media_types_witness :
  snd (fst (buildResponse (collab := listedOrder) testBuilder "string" "OK"
              ["application/json"; "application/yaml"] emptyDocument)) = None
  /\ snd (fst (buildResponse (collab := listedOrder) testBuilder "string" "OK"
                 ["application/json"; "application/json"] emptyDocument))
     <> None.
Proof.
  pose proof (buildResponse_media_types (collab := listedOrder) testBuilder
                "string" "OK") as Hmedia.
  split.
  - apply (Hmedia ["application/json"; "application/yaml"] emptyDocument
             (fst (fst (toSchema (collab := listedOrder) testBuilder "string"
                          emptyDocument))) emptyDocument).
    + vm_compute. reflexivity.
    + apply (bool_decide_unpack _). vm_compute. exact I.
  - intros Hnone.
    apply (Hmedia ["application/json"; "application/json"] emptyDocument
             (fst (fst (toSchema (collab := listedOrder) testBuilder "string"
                          emptyDocument))) emptyDocument) in Hnone.
    + apply NoDup_cons in Hnone as [Hout _]. apply Hout. left.
    + vm_compute. reflexivity.
Defined.

Lemma operation_status_codes_witness :
  dom (spec3.StatusCodeResponses
         (spec3.OResponses
            (fst (fst (buildOperations (collab := listedOrder)
                         commonResponsesBuilder returningRoute ∅
                         emptyDocument)))))
  = explicitCodes returningRoute
    ∪ dom (common.CommonResponses (config commonResponsesBuilder))
  /\ explicitCodes returningRoute = {[ 200%Z ]}.
Proof.
  destruct (operation_status_codes (collab := listedOrder)
              commonResponsesBuilder returningRoute ∅ emptyDocument
              (fst (fst (buildOperations (collab := listedOrder)
                          commonResponsesBuilder returningRoute ∅
                          emptyDocument)))
              (snd (buildOperations (collab := listedOrder)
                      commonResponsesBuilder returningRoute ∅ emptyDocument)))
    as [Hcodes _].
  - vm_compute. reflexivity.
  - split; [exact Hcodes | vm_compute; reflexivity].
Defined.

Lemma built_document_shape_witness :
  exists doc,
    BuildOpenAPISpec (collab := listedOrder) [fooService; brokenService]
      testConfig
    = (Some doc, Some (UnsupportedParameterKind restful.FormParameterKind))
    /\ spec3.Schemas doc = ∅
    /\ forall path item,
         spec3.Paths doc !! path = Some item ->
         spec3.Get item = None /\ spec3.Post item = None.
Proof.
  exists (setPath "/foo/test/{path}" (newPath [pathParameter]) emptyDocument).
  assert (BuildOpenAPISpec (collab := listedOrder) [fooService; brokenService]
            testConfig
          = (Some (setPath "/foo/test/{path}" (newPath [pathParameter])
                     emptyDocument),
             Some (UnsupportedParameterKind restful.FormParameterKind)))
    as Hbuild by (vm_compute; reflexivity).
  split; [exact Hbuild|].
  destruct (built_document_shape (collab := listedOrder) _ _ _ _ Hbuild)
    as [Hschemas Hitems].
  split; [exact Hschemas|]. intros path item Hitem.
  destruct (Hitems path item Hitem) as (_ & _ & Hget & _ & Hpost & _).
  split; [exact Hget | exact Hpost].
Defined.

Lemma web_service_parameter_fails_witness :
  snd (BuildOpenAPISpec (collab := listedOrder) [fooService; brokenService]
         testConfig) <> None.
Proof.
  apply (web_service_parameter_fails (collab := listedOrder)
           [fooService; brokenService] testConfig brokenService).
  - right. left.
  - reflexivity.
  - vm_compute. discriminate.
Defined.

Lemma paths_resolving_alike_fail_witness :
  snd (BuildOpenAPISpec (collab := listedOrder) [twoSpellingsService]
         testConfig) <> None.
Proof.
  apply (paths_resolving_alike_fail (collab := listedOrder)
           [twoSpellingsService] testConfig twoSpellingsService
           greedyRoute plainRoute).
  - left.
  - reflexivity.
  - left.
  - right. left.
  - vm_compute. discriminate.
  - vm_compute. reflexivity.
  - vm_compute. reflexivity.
Defined.
